(** * useTimeAgo: the time-bucketing algorithm [formatTimeAgo]

    A shallow embedding of [packages/core/useTimeAgo/index.ts].

    Numbers.  A JavaScript number is modelled by [num]: an exact rational,
    [NaN], or one of the two infinities.  This idealises binary64: finite
    arithmetic is exact (no rounding of quotients, no overflow) and zero
    carries no sign ([-0] is [0]).  Every comparison follows the JavaScript
    rules for [NaN] and the infinities, which is what the control flow of
    [formatTimeAgo] depends on.

    Exceptions.  The one built-in of the function's own code that throws is
    [Number.prototype.toFixed], on a digit count outside 0..100; a call
    completes normally or throws ([completion]).

    Capabilities.  [Intl.RelativeTimeFormat] and the full-date formatter are
    black boxes, taken as total: the function's result records which
    capability is invoked and on which arguments ([Rendered]); [render]
    turns that into the string, given the capabilities.

    The reference instant [now] is an explicit argument (its default,
    [Date.now()], is the caller's to supply). *)

From Stdlib Require Import ZArith QArith Qround Qabs List String Bool Lia Lqa.
Import ListNotations.

Local Open Scope Z_scope.

(** ** JavaScript numbers *)

Inductive num : Type :=
| NaN
| Inf (negative : bool)
| Fin (q : Q).

Arguments Fin q%_Q.

Definition Infinity : num := Inf false.

Module Num.

(** [x - y] *)
Definition sub (x y : num) : num :=
  match x, y with
  | NaN, _ | _, NaN => NaN
  | Inf s, Inf t => if Bool.eqb s t then NaN else Inf s
  | Inf s, Fin _ => Inf s
  | Fin _, Inf t => Inf (negb t)
  | Fin a, Fin b => Fin (Qred (a - b)%Q)
  end.

(** unary [-x] *)
Definition neg (x : num) : num :=
  match x with
  | NaN => NaN
  | Inf s => Inf (negb s)
  | Fin a => Fin (- a)
  end.

(** [Math.abs] *)
Definition abs (x : num) : num :=
  match x with
  | NaN => NaN
  | Inf _ => Inf false
  | Fin a => Fin (Qabs a)
  end.

Definition Qltb (a b : Q) : bool :=
  match (a ?= b)%Q with Lt => true | _ => false end.

Definition Qnegative (a : Q) : bool := Qltb a 0%Q.

(** [x / y] *)
Definition div (x y : num) : num :=
  match x, y with
  | NaN, _ | _, NaN => NaN
  | Inf _, Inf _ => NaN
  | Inf s, Fin b => Inf (xorb s (Qnegative b))
  | Fin _, Inf _ => Fin 0
  | Fin a, Fin b =>
      if Qeq_bool b 0%Q
      then (if Qeq_bool a 0%Q then NaN else Inf (Qnegative a))
      else Fin (Qred (a / b)%Q)
  end.

(** [x < y]; false as soon as one side is [NaN] *)
Definition ltb (x y : num) : bool :=
  match x, y with
  | NaN, _ | _, NaN => false
  | Inf true, Inf true => false
  | Inf true, _ => true
  | _, Inf true => false
  | Inf false, _ => false
  | Fin _, Inf false => true
  | Fin a, Fin b => Qltb a b
  end.

(** [x > y] *)
Definition gtb (x y : num) : bool := ltb y x.

(** [x <= y]; false as soon as one side is [NaN] *)
Definition leb (x y : num) : bool :=
  match x, y with
  | NaN, _ | _, NaN => false
  | Inf true, _ => true
  | _, Inf false => true
  | Inf false, _ => false
  | Fin _, Inf true => false
  | Fin a, Fin b => Qle_bool a b
  end.

(** ToBoolean of a number: [NaN] and zero are falsy *)
Definition truthy (x : num) : bool :=
  match x with
  | NaN => false
  | Inf _ => true
  | Fin a => negb (Qeq_bool a 0%Q)
  end.

Definition of_Z (z : Z) : num := Fin (inject_Z z).

End Num.

(** ** Completions: a call returns normally or throws *)

Inductive Error : Type := RangeError.

Inductive completion (A : Type) : Type :=
| Normal (a : A)
| Throw (e : Error).

Arguments Normal {A} a.
Arguments Throw {A} e.

Definition bind {A B : Type} (c : completion A) (k : A -> completion B)
  : completion B :=
  match c with
  | Normal a => k a
  | Throw e => Throw e
  end.

Notation "x <- c ;; k" := (bind c (fun x => k))
  (at level 61, c at next level, right associativity).

(** ** The built-ins the source calls *)

(** [Math.round]: the nearest integer, a tie going up *)
Definition Math_round (x : num) : num :=
  match x with
  | Fin a => Fin (inject_Z (Qfloor (a + (1 # 2))%Q))
  | _ => x
  end.

Definition Math_ceil (x : num) : num :=
  match x with
  | Fin a => Fin (inject_Z (Qceiling a))
  | _ => x
  end.

Definition Math_floor (x : num) : num :=
  match x with
  | Fin a => Fin (inject_Z (Qfloor a))
  | _ => x
  end.

(** ToIntegerOrInfinity: [NaN] is 0, a finite number is truncated towards
    zero, an infinity ([None]) stays infinite *)
Definition ToIntegerOrInfinity (d : num) : option Z :=
  match d with
  | NaN => Some 0
  | Inf _ => None
  | Fin a => Some (Z.quot (Qnum a) (Zpos (Qden a)))
  end.

(** [10 ^ f] for a digit count [f >= 0] *)
Definition pow10 (f : Z) : Q := inject_Z (10 ^ f).

(** The decimal with [f] fractional digits nearest to [a], a tie going away
    from zero: the number [toFixed] prints. *)
Definition Qfixed (a : Q) (f : Z) : Q :=
  let n := Qfloor (Qabs a * pow10 f + (1 # 2))%Q in
  let r := Qred (inject_Z n / pow10 f)%Q in
  if Num.Qnegative a then (- r)%Q else r.

(** [+x.toFixed(fractionDigits)].  [Number.prototype.toFixed] checks the
    digit count first and throws a RangeError outside 0..100, whatever [x]
    is; a non-finite [x] prints as itself and reads back as itself.  (At
    and above 1e21 [toFixed] prints the number unrounded; every binary64
    number of that size is an integer, so this is again [Qfixed].) *)
Definition toFixed (x : num) (fractionDigits : num) : completion num :=
  match ToIntegerOrInfinity fractionDigits with
  | None => Throw RangeError
  | Some f =>
      if (f <? 0) || (100 <? f) then Throw RangeError
      else match x with
           | Fin a => Normal (Fin (Qfixed a f))
           | _ => Normal x
           end
  end.

(** ** Data of the module *)

(** A [Date] holds a time value in milliseconds, or is invalid; [+date] is
    then [NaN]. *)
Inductive Date : Type :=
| InvalidDate
| TimeValue (t : Z).

Definition Date_valueOf (d : Date) : num :=
  match d with
  | InvalidDate => NaN
  | TimeValue t => Num.of_Z t
  end.

(** [now: Date | number] and its unary plus *)
Inductive DateOrNumber : Type :=
| OfDate (d : Date)
| OfNumber (n : num).

Definition ToNumber (now : DateOrNumber) : num :=
  match now with
  | OfDate d => Date_valueOf d
  | OfNumber n => n
  end.

Record UseTimeAgoUnit : Type := {
  max : num;
  value : num;
  name : string
}.

Definition DEFAULT_UNITS : list UseTimeAgoUnit := [
  {| max := Fin 60000; value := Fin 1000; name := "second" |};
  {| max := Fin 2760000; value := Fin 60000; name := "minute" |};
  {| max := Fin 72000000; value := Fin 3600000; name := "hour" |};
  {| max := Fin 518400000; value := Fin 86400000; name := "day" |};
  {| max := Fin 2419200000; value := Fin 604800000; name := "week" |};
  {| max := Fin 28512000000; value := Fin 2592000000; name := "month" |};
  {| max := Infinity; value := Fin 31536000000; name := "year" |}
].

(** The full-date formatter in force: the module's own
    ([date.toISOString().slice(0, 10)]) or the caller's. *)
Inductive FullDateFormatter : Type :=
| DEFAULT_FORMATTER
| CallerFormatter (f : Date -> string).

Inductive MathRounding : Type := round | ceil | floor.

(** [rounding?: 'round' | 'ceil' | 'floor' | number] *)
Inductive Rounding : Type :=
| ByName (m : MathRounding)
| ByDigits (d : num).

(** [max?: UnitNames | number] *)
Inductive MaxOption : Type :=
| MaxUnit (unitName : string)
| MaxNumber (n : num).

Inductive RelativeTimeNumeric : Type := always | auto.
Inductive RelativeTimeStyle : Type := long | short | narrow.

Record RelativeTimeFormatOptions : Type := {
  numeric : option RelativeTimeNumeric;
  style : option RelativeTimeStyle
}.

Record FormatTimeAgoOptions : Type := {
  opt_max : option MaxOption;
  opt_fullDateFormatter : option (Date -> string);
  opt_locale : option string;
  opt_relativeTimeOptions : option RelativeTimeFormatOptions;
  opt_showSecond : option bool;
  opt_rounding : option Rounding;
  opt_units : option (list UseTimeAgoUnit)
}.

(** [{}] *)
Definition no_options : FormatTimeAgoOptions := {|
  opt_max := None;
  opt_fullDateFormatter := None;
  opt_locale := None;
  opt_relativeTimeOptions := None;
  opt_showSecond := None;
  opt_rounding := None;
  opt_units := None
|}.

(** [new Intl.RelativeTimeFormat(locale, options)] *)
Record RelativeTimeFormat : Type := {
  rtf_locale : string;
  rtf_options : RelativeTimeFormatOptions
}.

(** What [formatTimeAgo] returns: the string a capability produces, or the
    empty string. *)
Inductive Rendered : Type :=
| rtf_format (rtf : RelativeTimeFormat) (val : num) (unit : string)
| fullDate (fullDateFormatter : FullDateFormatter) (date : Date)
| emptyString.

Section Rendering.

Variable Intl_format : RelativeTimeFormat -> num -> string -> string.
Variable toISOString : Date -> string.

Definition render (r : Rendered) : string :=
  match r with
  | rtf_format rtf val unit => Intl_format rtf val unit
  | fullDate DEFAULT_FORMATTER date => substring 0 10 (toISOString date)
  | fullDate (CallerFormatter f) date => f date
  | emptyString => EmptyString
  end.

End Rendering.

(** ** [formatTimeAgo] *)

(** A destructuring default: the option's value unless it is undefined *)
Definition or_default {A : Type} (o : option A) (d : A) : A :=
  match o with
  | Some a => a
  | None => d
  end.

(** [typeof rounding === 'number' ? n => +n.toFixed(rounding) : Math[rounding]] *)
Definition roundFn (rounding : Rounding) (n : num) : completion num :=
  match rounding with
  | ByDigits d => toFixed n d
  | ByName round => Normal (Math_round n)
  | ByName ceil => Normal (Math_ceil n)
  | ByName floor => Normal (Math_floor n)
  end.

Definition getValue (rounding : Rounding) (diff : num) (unit : UseTimeAgoUnit)
  : completion num :=
  roundFn rounding (Num.div (Num.abs diff) (value unit)).

Definition format (rtf : RelativeTimeFormat) (rounding : Rounding)
  (diff : num) (unit : UseTimeAgoUnit) : completion Rendered :=
  val <- getValue rounding diff unit ;;
  let past := Num.gtb diff (Fin 0) in
  Normal (rtf_format rtf (if past then Num.neg val else val) (name unit)).

(** [units[i]]: undefined outside the array *)
Definition elem_at (units : list UseTimeAgoUnit) (i : Z) : option UseTimeAgoUnit :=
  if i <? 0 then None else nth_error units (Z.to_nat i).

(** The [for (const [idx, unit] of units.entries())] loop, from entry [idx]
    on; [rest] is what is left of [units] there. *)
Fixpoint scan (rtf : RelativeTimeFormat) (rounding : Rounding) (diff : num)
  (units : list UseTimeAgoUnit) (idx : nat) (rest : list UseTimeAgoUnit)
  : completion Rendered :=
  match rest with
  | [] => Normal emptyString
  | unit :: rest' =>
      val <- getValue rounding diff unit ;;
      match (if Num.leb val (Fin 0) then elem_at units (Z.of_nat idx - 1) else None) with
      | Some previous => format rtf rounding diff previous
      | None =>
          if Num.ltb (Num.abs diff) (max unit)
          then format rtf rounding diff unit
          else scan rtf rounding diff units (S idx) rest'
      end
  end.

(** [i => i.name === max], the predicate handed to [find] *)
Definition named (unitName : string) (i : UseTimeAgoUnit) : bool :=
  String.eqb (name i) unitName.

(** [units.find(i => i.name === max)?.max] *)
Definition unitMax (units : list UseTimeAgoUnit) (unitName : string) : option num :=
  option_map max (find (named unitName) units).

(** [typeof max === 'number' && absDiff > max] *)
Definition exceeds_number (max : option MaxOption) (absDiff : num) : bool :=
  match max with
  | Some (MaxNumber m) => Num.gtb absDiff m
  | _ => false
  end.

(** [typeof max === 'string'] and, inside, [unitMax && absDiff > unitMax] *)
Definition exceeds_unit (max : option MaxOption) (units : list UseTimeAgoUnit)
  (absDiff : num) : bool :=
  match max with
  | Some (MaxUnit unitName) =>
      match unitMax units unitName with
      | Some m => Num.truthy m && Num.gtb absDiff m
      | None => false
      end
  | _ => false
  end.

Definition formatTimeAgo (from : Date) (options : FormatTimeAgoOptions)
  (now : DateOrNumber) : completion Rendered :=
  let max := opt_max options in
  let fullDateFormatter :=
    match opt_fullDateFormatter options with
    | Some f => CallerFormatter f
    | None => DEFAULT_FORMATTER
    end in
  let units := or_default (opt_units options) DEFAULT_UNITS in
  let showSecond := or_default (opt_showSecond options) false in
  let rounding := or_default (opt_rounding options) (ByName round) in
  let locale := or_default (opt_locale options) "ar"%string in
  let relativeTimeOptions :=
    or_default (opt_relativeTimeOptions options)
      {| numeric := Some auto; style := None |} in
  let rtf := {| rtf_locale := locale; rtf_options := relativeTimeOptions |} in
  let diff := Num.sub (ToNumber now) (Date_valueOf from) in
  let absDiff := Num.abs diff in
  if Num.ltb absDiff (Fin 60000) && negb showSecond
  then Normal (rtf_format rtf (Fin 0) "second")
  else if exceeds_number max absDiff
  then Normal (fullDate fullDateFormatter from)
  else if exceeds_unit max units absDiff
  then Normal (fullDate fullDateFormatter from)
  else scan rtf rounding diff units 0 units.

(** ** The values [formatTimeAgo] works on

    What the destructuring of [options] and the first lines of the function
    bind, as functions of the arguments; the statements below are phrased
    with them. *)

Definition units_of (options : FormatTimeAgoOptions) : list UseTimeAgoUnit :=
  or_default (opt_units options) DEFAULT_UNITS.

Definition showSecond_of (options : FormatTimeAgoOptions) : bool :=
  or_default (opt_showSecond options) false.

Definition rounding_of (options : FormatTimeAgoOptions) : Rounding :=
  or_default (opt_rounding options) (ByName round).

Definition fullDateFormatter_of (options : FormatTimeAgoOptions) : FullDateFormatter :=
  match opt_fullDateFormatter options with
  | Some f => CallerFormatter f
  | None => DEFAULT_FORMATTER
  end.

Definition rtf_of (options : FormatTimeAgoOptions) : RelativeTimeFormat :=
  {| rtf_locale := or_default (opt_locale options) "ar"%string;
     rtf_options := or_default (opt_relativeTimeOptions options)
                      {| numeric := Some auto; style := None |} |}.

Definition diff_of (from : Date) (now : DateOrNumber) : num :=
  Num.sub (ToNumber now) (Date_valueOf from).

(** The guard of the early return: [absDiff < 60000 && !showSecond] *)
Definition sub_minute (options : FormatTimeAgoOptions) (diff : num) : bool :=
  Num.ltb (Num.abs diff) (Fin 60000) && negb (showSecond_of options).

(** One of the two [max] guards fires *)
Definition max_exceeded (options : FormatTimeAgoOptions) (diff : num) : bool :=
  exceeds_number (opt_max options) (Num.abs diff)
  || exceeds_unit (opt_max options) (units_of options) (Num.abs diff).

(** The unit scan as [formatTimeAgo] starts it *)
Definition unit_scan (from : Date) (options : FormatTimeAgoOptions)
  (now : DateOrNumber) : completion Rendered :=
  scan (rtf_of options) (rounding_of options) (diff_of from now)
    (units_of options) 0 (units_of options).

(** The digit counts [toFixed] accepts; the named modes never throw *)
Definition rounding_accepted (rounding : Rounding) : bool :=
  match rounding with
  | ByName _ => true
  | ByDigits d =>
      match ToIntegerOrInfinity d with
      | Some f => (0 <=? f) && (f <=? 100)
      | None => false
      end
  end.

Definition is_zero (x : num) : bool :=
  match x with
  | Fin a => Qeq_bool a 0%Q
  | _ => false
  end.

(** ** Sample option objects *)

(** [{ ...options, rounding }] *)
Definition set_rounding (options : FormatTimeAgoOptions) (rounding : Rounding)
  : FormatTimeAgoOptions :=
  {| opt_max := opt_max options;
     opt_fullDateFormatter := opt_fullDateFormatter options;
     opt_locale := opt_locale options;
     opt_relativeTimeOptions := opt_relativeTimeOptions options;
     opt_showSecond := opt_showSecond options;
     opt_rounding := Some rounding;
     opt_units := opt_units options |}.

(** [{ max }] *)
Definition only_max (max : MaxOption) : FormatTimeAgoOptions :=
  {| opt_max := Some max;
     opt_fullDateFormatter := None;
     opt_locale := None;
     opt_relativeTimeOptions := None;
     opt_showSecond := None;
     opt_rounding := None;
     opt_units := None |}.

(** A caller's table whose first bucket is empty: its [max] is 0. *)
Definition zero_max_units : list UseTimeAgoUnit := [
  {| max := Fin 0; value := Fin 1000; name := "second" |};
  {| max := Infinity; value := Fin 60000; name := "minute" |}
].

(** [{ max: 'second', units: zero_max_units }] *)
Definition zero_max_options : FormatTimeAgoOptions :=
  {| opt_max := Some (MaxUnit "second");
     opt_fullDateFormatter := None;
     opt_locale := None;
     opt_relativeTimeOptions := None;
     opt_showSecond := None;
     opt_rounding := None;
     opt_units := Some zero_max_units |}.

(** ** Shapes of a unit table *)

(** The unit's size is a positive finite number. *)
Definition positive_size (unit : UseTimeAgoUnit) : bool :=
  match value unit with
  | Fin b => Num.Qltb 0%Q b
  | _ => false
  end.

(** The unit's size is positive and its bucket reaches at least one whole
    unit: [value <= max]. *)
Definition size_within_max (unit : UseTimeAgoUnit) : bool :=
  positive_size unit && Num.leb (value unit) (max unit).

(** The unit's bucket has no upper bound: its [max] is [+Infinity]. *)
Definition open_bucket (unit : UseTimeAgoUnit) : bool :=
  match max unit with
  | Inf false => true
  | _ => false
  end.

(** ** [useTimeAgo]: the getter of the computed [timeAgo] *)

(** TimeClip: a time value is a whole number of milliseconds within
    8.64e15 of the epoch; anything else makes the date invalid. *)
Definition TimeClip (time : num) : Date :=
  match time with
  | Fin a =>
      if Num.Qltb 8640000000000000%Q (Qabs a) then InvalidDate
      else TimeValue (Z.quot (Qnum a) (Zpos (Qden a)))
  | _ => InvalidDate
  end.

(** [toValue(time)], a [Date | number | string] *)
Inductive TimeSource : Type :=
| FromDate (d : Date)
| FromNumber (n : num)
| FromString (s : string).

(** [UseTimeAgoOptions]: the options of [formatTimeAgo] and two of its
    own. *)
Record UseTimeAgoOptions : Type := {
  controls : option bool;
  updateInterval : option num;
  formatOptions : FormatTimeAgoOptions
}.

Section UseTimeAgo.

(** [Date.parse], a black box *)
Variable Date_parse : string -> num.

(** [new Date(value)] *)
Definition new_Date (value : TimeSource) : Date :=
  match value with
  | FromDate d => TimeClip (Date_valueOf d)
  | FromNumber n => TimeClip n
  | FromString s => TimeClip (Date_parse s)
  end.

(** [() => formatTimeAgo(new Date(toValue(time)), options, toValue(now.value))],
    [now.value] being the [Date] that [useNow] holds. *)
Definition useTimeAgo_timeAgo (time : TimeSource) (options : UseTimeAgoOptions)
  (now : Date) : completion Rendered :=
  formatTimeAgo (new_Date time) (formatOptions options) (OfDate now).

End UseTimeAgo.

(** ** The branches of [formatTimeAgo] *)

Lemma formatTimeAgo_branches from options now :
  formatTimeAgo from options now =
    if sub_minute options (diff_of from now)
    then Normal (rtf_format (rtf_of options) (Fin 0) "second")
    else if max_exceeded options (diff_of from now)
    then Normal (fullDate (fullDateFormatter_of options) from)
    else unit_scan from options now.
Proof.
  unfold formatTimeAgo, sub_minute, max_exceeded, unit_scan.
  fold (units_of options) (showSecond_of options) (rounding_of options)
    (fullDateFormatter_of options) (rtf_of options) (diff_of from now).
  destruct (Num.ltb _ _ && _); [reflexivity|].
  destruct (exceeds_number _ _); reflexivity.
Qed.

(** ** Facts on numbers *)

Lemma Qltb_lt a b : Num.Qltb a b = true <-> (a < b)%Q.
Proof.
  unfold Num.Qltb. rewrite Qlt_alt.
  destruct (a ?= b)%Q; split; congruence.
Qed.

Lemma Qltb_ge a b : Num.Qltb a b = false <-> (b <= a)%Q.
Proof.
  unfold Num.Qltb. rewrite Qle_alt, <- (Qcompare_antisym a b).
  destruct (a ?= b)%Q; simpl; split; congruence.
Qed.

Lemma sub_NaN_r x : Num.sub x NaN = NaN.
Proof. destruct x; reflexivity. Qed.

Lemma ltb_NaN_r x : Num.ltb x NaN = false.
Proof. destruct x as [|[]|]; reflexivity. Qed.

Lemma leb_NaN_l x : Num.leb NaN x = false.
Proof. reflexivity. Qed.

Lemma div_NaN_l x : Num.div NaN x = NaN.
Proof. reflexivity. Qed.

Lemma ltb_Fin_Infinity q : Num.ltb (Fin q) Infinity = true.
Proof. reflexivity. Qed.

Lemma truthy_not_zero x :
  Num.truthy x = negb (is_zero x) && negb (match x with NaN => true | _ => false end).
Proof. destruct x; simpl; try reflexivity. now rewrite andb_true_r. Qed.

(** ** Facts on rounding *)

Lemma roundFn_accepted rounding n :
  rounding_accepted rounding = true -> exists r, roundFn rounding n = Normal r.
Proof.
  destruct rounding as [[]|d]; simpl; eauto.
  unfold toFixed. destruct (ToIntegerOrInfinity d) as [f|]; [|discriminate].
  intros H. apply andb_true_iff in H as [H0 H1].
  apply Z.leb_le in H0, H1.
  destruct (f <? 0) eqn:E0; [apply Z.ltb_lt in E0; lia|].
  destruct (100 <? f) eqn:E1; [apply Z.ltb_lt in E1; lia|].
  simpl. destruct n; eauto.
Qed.

Lemma roundFn_rejected rounding n :
  rounding_accepted rounding = false -> roundFn rounding n = Throw RangeError.
Proof.
  destruct rounding as [[]|d]; simpl; try discriminate.
  unfold toFixed. destruct (ToIntegerOrInfinity d) as [f|]; [|reflexivity].
  intros H. apply andb_false_iff in H.
  destruct (f <? 0) eqn:E0; [reflexivity|].
  destruct (100 <? f) eqn:E1; [reflexivity|].
  apply Z.ltb_ge in E0, E1.
  destruct H as [H|H]; apply Z.leb_gt in H; lia.
Qed.

Lemma roundFn_NaN rounding :
  rounding_accepted rounding = true -> roundFn rounding NaN = Normal NaN.
Proof.
  destruct rounding as [[]|d]; simpl; try reflexivity.
  unfold toFixed. destruct (ToIntegerOrInfinity d) as [f|]; [|discriminate].
  intros H. apply andb_true_iff in H as [H0 H1].
  apply Z.leb_le in H0, H1.
  destruct (f <? 0) eqn:E0; [apply Z.ltb_lt in E0; lia|].
  destruct (100 <? f) eqn:E1; [apply Z.ltb_lt in E1; lia|].
  reflexivity.
Qed.

(** A throw of the magnitude computation does not depend on the unit. *)
Lemma getValue_Throw rounding diff unit e :
  getValue rounding diff unit = Throw e ->
  forall diff' unit', getValue rounding diff' unit' = Throw e.
Proof.
  unfold getValue. intros H diff' unit'.
  destruct (rounding_accepted rounding) eqn:A.
  - destruct (roundFn_accepted rounding (Num.div (Num.abs diff) (value unit)) A)
      as [r Hr]. congruence.
  - rewrite roundFn_rejected in H by assumption.
    rewrite roundFn_rejected by assumption. exact H.
Qed.

Lemma getValue_Normal rounding diff unit val :
  getValue rounding diff unit = Normal val ->
  rounding_accepted rounding = true.
Proof.
  unfold getValue. intros H.
  destruct (rounding_accepted rounding) eqn:A; [reflexivity|].
  rewrite roundFn_rejected in H by assumption. discriminate.
Qed.

Lemma format_cases rtf rounding diff unit :
  (exists e, format rtf rounding diff unit = Throw e)
  \/ (exists val, format rtf rounding diff unit
                  = Normal (rtf_format rtf val (name unit))).
Proof.
  unfold format. destruct (getValue rounding diff unit); simpl; eauto.
Qed.

(** ** Facts on the unit scan *)

Lemma elem_at_before_first units : elem_at units (Z.of_nat 0 - 1) = None.
Proof. reflexivity. Qed.

Lemma elem_at_previous units idx :
  (0 < idx)%nat -> elem_at units (Z.of_nat idx - 1) = nth_error units (idx - 1).
Proof.
  intros H. unfold elem_at.
  destruct (Z.of_nat idx - 1 <? 0) eqn:E; [apply Z.ltb_lt in E; lia|].
  f_equal. lia.
Qed.

Lemma elem_at_In units i unit : elem_at units i = Some unit -> In unit units.
Proof.
  unfold elem_at. destruct (i <? 0); [discriminate|]. apply nth_error_In.
Qed.

Lemma nth_error_skipn (units : list UseTimeAgoUnit) k unit :
  nth_error units k = Some unit ->
  exists rest, skipn k units = unit :: rest.
Proof.
  revert units. induction k as [|k IH]; intros [|u units] H; try discriminate.
  - injection H as ->. now exists units.
  - simpl in *. now apply IH.
Qed.

Section Scan.

Variable rtf : RelativeTimeFormat.
Variable rounding : Rounding.
Variable diff : num.
Variable units : list UseTimeAgoUnit.

(** The scan passes over the entries that neither fit nor trigger the
    fallback to the previous entry. *)
Lemma scan_moves_on k : forall pre rest,
  units = pre ++ rest ->
  rounding_accepted rounding = true ->
  (forall j u, (j < k)%nat -> nth_error rest j = Some u ->
     Num.ltb (Num.abs diff) (max u) = false) ->
  (forall j u val, (j < k)%nat -> (0 < List.length pre + j)%nat ->
     nth_error rest j = Some u -> getValue rounding diff u = Normal val ->
     Num.leb val (Fin 0) = false) ->
  scan rtf rounding diff units (List.length pre) rest
  = scan rtf rounding diff units (List.length pre + k) (skipn k rest).
Proof.
  induction k as [|k IH]; intros pre rest Hu Hacc Hfit Hval.
  - now rewrite Nat.add_0_r.
  - destruct rest as [|u rest]; [reflexivity|].
    cbn [scan skipn]. unfold getValue at 1.
    destruct (roundFn_accepted rounding (Num.div (Num.abs diff) (value u)) Hacc)
      as [v Hv].
    rewrite Hv. cbn [bind].
    assert (Hfb : (if Num.leb v (Fin 0)
                   then elem_at units (Z.of_nat (List.length pre) - 1)
                   else None) = None).
    { destruct (Num.leb v (Fin 0)) eqn:Hle; [|reflexivity].
      destruct pre as [|p pre]; [reflexivity|].
      rewrite (Hval 0%nat u v) in Hle; [discriminate|lia|simpl; lia|reflexivity|].
      exact Hv. }
    rewrite Hfb, (Hfit 0%nat u) by (try reflexivity; lia).
    replace (List.length pre + S k)%nat with (List.length (pre ++ [u]) + k)%nat
      by (rewrite length_app; simpl; lia).
    replace (S (List.length pre)) with (List.length (pre ++ [u]))
      by (rewrite length_app; simpl; lia).
    apply IH.
    + now rewrite <- app_assoc.
    + assumption.
    + intros j u' Hj Hn. apply (Hfit (S j)); [lia|exact Hn].
    + intros j u' val Hj Hpos Hn. apply (Hval (S j)); [lia| |exact Hn].
      rewrite length_app in Hpos. simpl in Hpos. lia.
Qed.

(** From the start of the table. *)
Lemma scan_reaches k :
  rounding_accepted rounding = true ->
  (forall j u, (j < k)%nat -> nth_error units j = Some u ->
     Num.ltb (Num.abs diff) (max u) = false) ->
  (forall j u val, (0 < j < k)%nat -> nth_error units j = Some u ->
     getValue rounding diff u = Normal val -> Num.leb val (Fin 0) = false) ->
  scan rtf rounding diff units 0 units
  = scan rtf rounding diff units k (skipn k units).
Proof.
  intros Hacc Hfit Hval.
  apply (scan_moves_on k [] units eq_refl Hacc Hfit).
  intros j u val Hj Hpos. cbn [List.length Nat.add] in Hpos.
  apply Hval. lia.
Qed.

(** Whatever the scan returns is the empty string or a phrase produced by
    [format] on a unit of the table. *)
Lemma scan_returns_format : forall rest idx out,
  (forall u, In u rest -> In u units) ->
  scan rtf rounding diff units idx rest = Normal out ->
  out = emptyString
  \/ exists unit, In unit units /\ format rtf rounding diff unit = Normal out.
Proof.
  induction rest as [|u rest IH]; intros idx out Hin H.
  - left. simpl in H. congruence.
  - cbn [scan] in H. destruct (getValue rounding diff u) as [v|e]; [|discriminate].
    cbn [bind] in H.
    destruct (if Num.leb v (Fin 0) then elem_at units (Z.of_nat idx - 1) else None)
      as [previous|] eqn:Hfb.
    + right. exists previous. split; [|exact H].
      destruct (Num.leb v (Fin 0)); [|discriminate].
      eapply elem_at_In; eassumption.
    + destruct (Num.ltb (Num.abs diff) (max u)).
      * right. exists u. split; [apply Hin; now left|exact H].
      * apply (IH (S idx)); [|exact H]. intros u' Hu'. apply Hin. now right.
Qed.

(** A table with a unit that fits is never scanned to its end. *)
Lemma scan_finds_fit : forall rest idx,
  (exists u, In u rest /\ Num.ltb (Num.abs diff) (max u) = true) ->
  scan rtf rounding diff units idx rest <> Normal emptyString.
Proof.
  induction rest as [|u rest IH]; intros idx [u0 [Hin Hfit]]; [destruct Hin|].
  cbn [scan]. destruct (getValue rounding diff u) as [v|e]; [|discriminate].
  cbn [bind].
  destruct (if Num.leb v (Fin 0) then elem_at units (Z.of_nat idx - 1) else None)
    as [previous|].
  - destruct (format_cases rtf rounding diff previous) as [[e ->]|[val ->]];
      discriminate.
  - destruct (Num.ltb (Num.abs diff) (max u)) eqn:Hu.
    + destruct (format_cases rtf rounding diff u) as [[e ->]|[val ->]];
        discriminate.
    + apply IH. exists u0. split; [|exact Hfit].
      destruct Hin as [<-|Hin]; [congruence|exact Hin].
Qed.

(** With a rounding the magnitude function accepts, the scan returns. *)
Lemma scan_accepted : forall rest idx,
  rounding_accepted rounding = true ->
  exists out, scan rtf rounding diff units idx rest = Normal out.
Proof.
  assert (Hformat : forall u, rounding_accepted rounding = true ->
            exists out, format rtf rounding diff u = Normal out).
  { intros u Hacc. unfold format, getValue.
    destruct (roundFn_accepted rounding (Num.div (Num.abs diff) (value u)) Hacc)
      as [v ->]. cbn [bind]. eauto. }
  induction rest as [|u rest IH]; intros idx Hacc; [simpl; eauto|].
  cbn [scan]. unfold getValue at 1.
  destruct (roundFn_accepted rounding (Num.div (Num.abs diff) (value u)) Hacc)
    as [v ->]. cbn [bind].
  destruct (if Num.leb v (Fin 0) then elem_at units (Z.of_nat idx - 1) else None);
    [now apply Hformat|].
  destruct (Num.ltb (Num.abs diff) (max u)); [now apply Hformat|].
  now apply IH.
Qed.

(** With a rounding it rejects, the first magnitude computed throws. *)
Lemma scan_rejected unit rest idx :
  rounding_accepted rounding = false ->
  scan rtf rounding diff units idx (unit :: rest) = Throw RangeError.
Proof.
  intros Hrej. cbn [scan]. unfold getValue.
  now rewrite roundFn_rejected.
Qed.

End Scan.

(** On [NaN] no guard of the scan holds: it runs to the end of the table. *)
Lemma scan_NaN rtf rounding units : forall rest idx,
  rounding_accepted rounding = true ->
  scan rtf rounding NaN units idx rest = Normal emptyString.
Proof.
  induction rest as [|u rest IH]; intros idx Hacc; [reflexivity|].
  cbn [scan]. unfold getValue. cbn [Num.abs]. rewrite div_NaN_l.
  rewrite roundFn_NaN by assumption. cbn [bind].
  rewrite leb_NaN_l. cbn [Num.ltb]. now apply IH.
Qed.

(** The scan stops at the first entry that fits when no magnitude computed
    on the way, from index 1 on, is [<= 0]. *)
Lemma scan_first_fitting_unit rtf rounding diff units k unit :
  nth_error units k = Some unit ->
  Num.ltb (Num.abs diff) (max unit) = true ->
  (forall j u, (j < k)%nat -> nth_error units j = Some u ->
     Num.ltb (Num.abs diff) (max u) = false) ->
  (forall j u val, (0 < j <= k)%nat -> nth_error units j = Some u ->
     getValue rounding diff u = Normal val -> Num.leb val (Fin 0) = false) ->
  scan rtf rounding diff units 0 units = format rtf rounding diff unit.
Proof.
  intros Hk Hfit Hbefore Hval.
  destruct (nth_error_skipn _ _ _ Hk) as [rest Hrest].
  destruct (rounding_accepted rounding) eqn:Hacc.
  - rewrite (scan_reaches rtf rounding diff units k Hacc).
    + rewrite Hrest. cbn [scan].
      destruct (getValue rounding diff unit) as [v|e] eqn:Hv.
      * cbn [bind].
        assert (Hfb : (if Num.leb v (Fin 0)
                       then elem_at units (Z.of_nat k - 1)
                       else None) = None).
        { destruct (Num.leb v (Fin 0)) eqn:Hle; [|reflexivity].
          destruct k as [|k]; [reflexivity|].
          rewrite (Hval (S k) unit v) in Hle; [discriminate|lia|exact Hk|exact Hv]. }
        now rewrite Hfb, Hfit.
      * unfold format. now rewrite Hv.
    + intros j u Hj. now apply Hbefore.
    + intros j u val Hj. apply Hval. lia.
  - destruct units as [|u0 units]; [destruct k; discriminate|].
    rewrite scan_rejected by assumption.
    unfold format, getValue. now rewrite roundFn_rejected.
Qed.

(** ** The early return and the [max] threshold *)

(** A relative phrase is always rendered by the formatter built from the
    options. *)
Lemma formatTimeAgo_rtf from options now rtf val unit :
  formatTimeAgo from options now = Normal (rtf_format rtf val unit) ->
  rtf = rtf_of options.
Proof.
  rewrite formatTimeAgo_branches.
  destruct (sub_minute _ _); [congruence|].
  destruct (max_exceeded _ _); [discriminate|].
  intros H. apply scan_returns_format in H; [|tauto].
  destruct H as [H|[u [_ H]]]; [discriminate|].
  destruct (format_cases (rtf_of options) (rounding_of options)
              (diff_of from now) u) as [[e He]|[v Hv]]; congruence.
Qed.

Lemma unit_scan_no_fullDate from options now fullDateFormatter date :
  unit_scan from options now <> Normal (fullDate fullDateFormatter date).
Proof.
  intros H. apply scan_returns_format in H; [|tauto].
  destruct H as [H|[u [_ H]]]; [discriminate|].
  destruct (format_cases (rtf_of options) (rounding_of options)
              (diff_of from now) u) as [[e He]|[v Hv]]; congruence.
Qed.

(** C2: when the difference is under 60000 ms in absolute value and
    [showSecond] is false or absent, [formatTimeAgo] returns the
    zero-second phrase, [rtf.format(0, 'second')], whatever [max] is. *)
Theorem formatTimeAgo_less_than_a_minute from options now q :
  diff_of from now = Fin q ->
  (Qabs q < 60000)%Q ->
  opt_showSecond options = None \/ opt_showSecond options = Some false ->
  formatTimeAgo from options now
  = Normal (rtf_format (rtf_of options) (Fin 0) "second").
Proof.
  intros Hd Hq Hs. rewrite formatTimeAgo_branches.
  unfold sub_minute, showSecond_of. rewrite Hd. cbn [Num.abs Num.ltb].
  apply Qltb_lt in Hq. rewrite Hq.
  destruct Hs as [-> | ->]; reflexivity.
Qed.

Lemma formatTimeAgo_less_than_a_minute_witness :
  formatTimeAgo (TimeValue 0) (only_max (MaxNumber (Fin 10))) (OfNumber (Fin 30000))
  = Normal (rtf_format (rtf_of (only_max (MaxNumber (Fin 10)))) (Fin 0) "second").
Proof.
  apply (formatTimeAgo_less_than_a_minute (TimeValue 0)
           (only_max (MaxNumber (Fin 10))) (OfNumber (Fin 30000)) 30000%Q).
  - reflexivity.
  - reflexivity.
  - left. reflexivity.
Defined.

(** C3, as the code has it: past the sub-minute early return, when [max]
    is a number that the absolute difference exceeds, or names a unit of
    the table (the first so named) whose [max] field is not 0 and is
    exceeded, [formatTimeAgo] returns [fullDateFormatter(from)]. *)
Theorem formatTimeAgo_max_exceeded from options now :
  sub_minute options (diff_of from now) = false ->
  (exists m, opt_max options = Some (MaxNumber m)
             /\ Num.gtb (Num.abs (diff_of from now)) m = true)
  \/ (exists unitName unit,
        opt_max options = Some (MaxUnit unitName)
        /\ find (named unitName) (units_of options) = Some unit
        /\ is_zero (max unit) = false
        /\ Num.gtb (Num.abs (diff_of from now)) (max unit) = true) ->
  formatTimeAgo from options now
  = Normal (fullDate (fullDateFormatter_of options) from).
Proof.
  intros Hsub Hmax. rewrite formatTimeAgo_branches, Hsub.
  replace (max_exceeded options (diff_of from now)) with true; [reflexivity|].
  symmetry. unfold max_exceeded.
  destruct Hmax as [[m [Hm Hgt]]|[unitName [unit [Hm [Hf [Hz Hgt]]]]]].
  - rewrite Hm. simpl. now rewrite Hgt.
  - rewrite Hm. simpl. unfold unitMax. rewrite Hf. simpl.
    rewrite Hgt, truthy_not_zero, Hz.
    destruct (max unit); try reflexivity. discriminate Hgt.
Qed.

Lemma formatTimeAgo_max_exceeded_witness :
  formatTimeAgo (TimeValue 0) (only_max (MaxUnit "minute"))
    (OfNumber (Fin 3600000))
  = Normal (fullDate DEFAULT_FORMATTER (TimeValue 0)).
Proof.
  apply (formatTimeAgo_max_exceeded (TimeValue 0) (only_max (MaxUnit "minute"))
           (OfNumber (Fin 3600000))).
  - reflexivity.
  - right. exists "minute"%string.
    exists {| max := Fin 2760000; value := Fin 60000; name := "minute" |}.
    repeat split; reflexivity.
Defined.

(** C3 as stated fails: 'second' names a unit of the caller's table and the
    difference, 120000 ms, exceeds that unit's [max], 0; the call is not
    sub-minute; yet a relative phrase is returned, not the full date. *)
Lemma formatTimeAgo_max_zero_not_exceeded :
  let from := TimeValue 0 in
  let now := OfNumber (Fin 120000) in
  let unit := {| max := Fin 0; value := Fin 1000; name := "second" |} in
  sub_minute zero_max_options (diff_of from now) = false
  /\ opt_max zero_max_options = Some (MaxUnit "second")
  /\ find (named "second") (units_of zero_max_options) = Some unit
  /\ Num.gtb (Num.abs (diff_of from now)) (max unit) = true
  /\ formatTimeAgo from zero_max_options now
     = Normal (rtf_format (rtf_of zero_max_options) (Fin (-2)) "minute")
  /\ formatTimeAgo from zero_max_options now
     <> Normal (fullDate (fullDateFormatter_of zero_max_options) from).
Proof.
  repeat split; try reflexivity. discriminate.
Qed.

(** C9: without a [locale] option the relative-time formatter is built for
    the locale 'ar', and every relative phrase [formatTimeAgo] returns is
    rendered by that formatter. *)
Theorem formatTimeAgo_default_locale from options now :
  opt_locale options = None ->
  rtf_locale (rtf_of options) = "ar"%string
  /\ forall rtf val unit,
       formatTimeAgo from options now = Normal (rtf_format rtf val unit) ->
       rtf_locale rtf = "ar"%string.
Proof.
  intros Hl.
  assert (H : rtf_locale (rtf_of options) = "ar"%string)
    by (unfold rtf_of; now rewrite Hl).
  split; [exact H|].
  intros rtf val unit Hr. now rewrite (formatTimeAgo_rtf _ _ _ _ _ _ Hr).
Qed.

Lemma formatTimeAgo_default_locale_witness :
  rtf_locale (rtf_of no_options) = "ar"%string
  /\ forall rtf val unit,
       formatTimeAgo (TimeValue 0) no_options (OfNumber (Fin 180000))
       = Normal (rtf_format rtf val unit) ->
       rtf_locale rtf = "ar"%string.
Proof.
  apply (formatTimeAgo_default_locale (TimeValue 0) no_options
           (OfNumber (Fin 180000))).
  reflexivity.
Defined.

(** C10: when [max] is a string that names no unit of the table, or names
    one (the first so named) whose [max] field is 0, the threshold is
    ignored: [formatTimeAgo] never returns the full date, and whenever the
    sub-minute early return is not taken its result is that of the unit
    scan. *)
Theorem formatTimeAgo_max_unit_ignored from options now unitName :
  opt_max options = Some (MaxUnit unitName) ->
  find (named unitName) (units_of options) = None
  \/ (exists unit, find (named unitName) (units_of options) = Some unit
                   /\ is_zero (max unit) = true) ->
  (forall fullDateFormatter date,
     formatTimeAgo from options now <> Normal (fullDate fullDateFormatter date))
  /\ (sub_minute options (diff_of from now) = false ->
      formatTimeAgo from options now = unit_scan from options now).
Proof.
  intros Hm Hfind.
  assert (Hex : max_exceeded options (diff_of from now) = false).
  { unfold max_exceeded. rewrite Hm. simpl. unfold unitMax.
    destruct Hfind as [-> | [unit [-> Hz]]]; [reflexivity|].
    simpl. rewrite truthy_not_zero, Hz. reflexivity. }
  rewrite formatTimeAgo_branches, Hex. split.
  - intros f d. destruct (sub_minute _ _); [discriminate|].
    apply unit_scan_no_fullDate.
  - now intros ->.
Qed.

Lemma formatTimeAgo_max_unit_ignored_witness :
  (forall fullDateFormatter date,
     formatTimeAgo (TimeValue 0) zero_max_options (OfNumber (Fin 120000))
     <> Normal (fullDate fullDateFormatter date))
  /\ (sub_minute zero_max_options
        (diff_of (TimeValue 0) (OfNumber (Fin 120000))) = false ->
      formatTimeAgo (TimeValue 0) zero_max_options (OfNumber (Fin 120000))
      = unit_scan (TimeValue 0) zero_max_options (OfNumber (Fin 120000))).
Proof.
  apply (formatTimeAgo_max_unit_ignored (TimeValue 0) zero_max_options
           (OfNumber (Fin 120000)) "second"%string).
  - reflexivity.
  - right. exists {| max := Fin 0; value := Fin 1000; name := "second" |}.
    split; reflexivity.
Defined.

(** ** The unit scan *)

(** C1, as the code has it: past the sub-minute early return and the [max]
    threshold, [formatTimeAgo] returns the phrase [format] builds for the
    first unit of the table whose bucket fits ([absDiff < unit.max]), its
    magnitude being the configured rounding of [absDiff / unit.value],
    provided no magnitude computed at an entry of index 1 up to that unit
    is [<= 0] (the fallback of C4 otherwise takes over). *)
Theorem formatTimeAgo_first_fitting_unit from options now k unit :
  sub_minute options (diff_of from now) = false ->
  max_exceeded options (diff_of from now) = false ->
  nth_error (units_of options) k = Some unit ->
  Num.ltb (Num.abs (diff_of from now)) (max unit) = true ->
  (forall j u, (j < k)%nat -> nth_error (units_of options) j = Some u ->
     Num.ltb (Num.abs (diff_of from now)) (max u) = false) ->
  (forall j u val, (0 < j <= k)%nat -> nth_error (units_of options) j = Some u ->
     getValue (rounding_of options) (diff_of from now) u = Normal val ->
     Num.leb val (Fin 0) = false) ->
  formatTimeAgo from options now
  = format (rtf_of options) (rounding_of options) (diff_of from now) unit.
Proof.
  intros Hsub Hmax Hk Hfit Hbefore Hval.
  rewrite formatTimeAgo_branches, Hsub, Hmax.
  now apply scan_first_fitting_unit with (k := k).
Qed.

Lemma formatTimeAgo_first_fitting_unit_witness :
  formatTimeAgo (TimeValue 0) no_options (OfNumber (Fin 180000))
  = format (rtf_of no_options) (rounding_of no_options)
      (diff_of (TimeValue 0) (OfNumber (Fin 180000)))
      {| max := Fin 2760000; value := Fin 60000; name := "minute" |}.
Proof.
  apply (formatTimeAgo_first_fitting_unit (TimeValue 0) no_options
           (OfNumber (Fin 180000)) 1%nat).
  - reflexivity.
  - reflexivity.
  - reflexivity.
  - reflexivity.
  - intros [|j] u Hj Hu; [|lia]. injection Hu as <-. reflexivity.
  - intros [|[|j]] u val Hj Hu Hv; try lia.
    injection Hu as <-. vm_compute in Hv. injection Hv as <-. reflexivity.
Defined.

(** C1 as stated fails: with [rounding: 'floor'] and a difference of 46
    minutes the first unit whose bucket fits is 'hour' (46 min is not under
    the [max] of 'second' or 'minute', and is under that of 'hour'), but
    the phrase returned is the one for 46 minutes, not a phrase in hours. *)
Lemma formatTimeAgo_floor_not_first_fitting_unit :
  let from := TimeValue 0 in
  let now := OfNumber (Fin 2760000) in
  let options := set_rounding no_options (ByName floor) in
  let hour := {| max := Fin 72000000; value := Fin 3600000; name := "hour" |} in
  sub_minute options (diff_of from now) = false
  /\ max_exceeded options (diff_of from now) = false
  /\ map (fun u => Num.ltb (Num.abs (diff_of from now)) (max u))
         (firstn 3 (units_of options)) = [false; false; true]
  /\ nth_error (units_of options) 2 = Some hour
  /\ format (rtf_of options) (rounding_of options) (diff_of from now) hour
     = Normal (rtf_format (rtf_of options) (Fin 0) "hour")
  /\ formatTimeAgo from options now
     = Normal (rtf_format (rtf_of options) (Fin (-46)) "minute")
  /\ formatTimeAgo from options now
     <> format (rtf_of options) (rounding_of options) (diff_of from now) hour.
Proof.
  repeat split; try reflexivity. discriminate.
Qed.

(** C4: when the scan reaches an entry of index [idx > 0] (no earlier entry
    fits or triggers the fallback) and the magnitude computed there is
    [<= 0], [formatTimeAgo] returns the phrase [format] builds for the
    previous entry, [units[idx - 1]]. *)
Theorem formatTimeAgo_falls_back_to_previous_unit
  from options now idx unit previous val :
  sub_minute options (diff_of from now) = false ->
  max_exceeded options (diff_of from now) = false ->
  (0 < idx)%nat ->
  nth_error (units_of options) idx = Some unit ->
  nth_error (units_of options) (idx - 1) = Some previous ->
  (forall j u, (j < idx)%nat -> nth_error (units_of options) j = Some u ->
     Num.ltb (Num.abs (diff_of from now)) (max u) = false) ->
  (forall j u v, (0 < j < idx)%nat -> nth_error (units_of options) j = Some u ->
     getValue (rounding_of options) (diff_of from now) u = Normal v ->
     Num.leb v (Fin 0) = false) ->
  getValue (rounding_of options) (diff_of from now) unit = Normal val ->
  Num.leb val (Fin 0) = true ->
  formatTimeAgo from options now
  = format (rtf_of options) (rounding_of options) (diff_of from now) previous.
Proof.
  intros Hsub Hmax Hidx Hu Hp Hbefore Hval Hv Hle.
  rewrite formatTimeAgo_branches, Hsub, Hmax. unfold unit_scan.
  destruct (nth_error_skipn _ _ _ Hu) as [rest Hrest].
  rewrite (scan_reaches (rtf_of options) (rounding_of options)
             (diff_of from now) (units_of options) idx
             (getValue_Normal _ _ _ _ Hv)).
  - rewrite Hrest. cbn [scan]. rewrite Hv. cbn [bind].
    now rewrite Hle, elem_at_previous, Hp.
  - intros j u Hj. now apply Hbefore.
  - exact Hval.
Qed.

Lemma formatTimeAgo_falls_back_to_previous_unit_witness :
  formatTimeAgo (TimeValue 0) (set_rounding no_options (ByName floor))
    (OfNumber (Fin 2760000))
  = format (rtf_of (set_rounding no_options (ByName floor))) (ByName floor)
      (diff_of (TimeValue 0) (OfNumber (Fin 2760000)))
      {| max := Fin 2760000; value := Fin 60000; name := "minute" |}.
Proof.
  apply (formatTimeAgo_falls_back_to_previous_unit (TimeValue 0)
           (set_rounding no_options (ByName floor)) (OfNumber (Fin 2760000))
           2%nat
           {| max := Fin 72000000; value := Fin 3600000; name := "hour" |}
           {| max := Fin 2760000; value := Fin 60000; name := "minute" |}
           (Fin 0)).
  - reflexivity.
  - reflexivity.
  - lia.
  - reflexivity.
  - reflexivity.
  - intros [|[|j]] u Hj Hu; try lia; injection Hu as <-; reflexivity.
  - intros [|[|j]] u v Hj Hu Hv; try lia.
    injection Hu as <-. vm_compute in Hv. injection Hv as <-. reflexivity.
  - reflexivity.
  - reflexivity.
Defined.

(** ** The default unit table *)

Lemma first_fitting_unit_exists (fits : UseTimeAgoUnit -> bool) :
  forall units,
  (exists u, In u units /\ fits u = true) ->
  exists k unit,
    nth_error units k = Some unit /\ fits unit = true
    /\ forall j u, (j < k)%nat -> nth_error units j = Some u -> fits u = false.
Proof.
  induction units as [|u0 units IH]; intros [u [Hin Hfit]]; [destruct Hin|].
  destruct (fits u0) eqn:H0.
  - exists 0%nat, u0. repeat split; [exact H0|]. intros j u' Hj. lia.
  - destruct IH as [k [unit [Hk [Hu Hfirst]]]].
    { exists u. split; [|exact Hfit]. destruct Hin as [<-|Hin]; [congruence|exact Hin]. }
    exists (S k), unit. repeat split; [exact Hk|exact Hu|].
    intros [|j] u' Hj Hn; [simpl in Hn; congruence|].
    apply (Hfirst j); [lia|exact Hn].
Qed.

(** C8: in the default unit table the [max] fields increase strictly from
    each entry to the next and the last entry's [max] is [+Infinity]; so
    for every finite difference the table has a first unit whose bucket
    fits, and [formatTimeAgo] on the default table never runs the scan to
    its end (it does not return the empty string). *)
Theorem DEFAULT_UNITS_well_formed :
  (forall i a b,
     nth_error DEFAULT_UNITS i = Some a ->
     nth_error DEFAULT_UNITS (S i) = Some b ->
     Num.ltb (max a) (max b) = true)
  /\ option_map max (nth_error DEFAULT_UNITS (List.length DEFAULT_UNITS - 1))
     = Some Infinity
  /\ (forall q : Q, exists k unit,
        nth_error DEFAULT_UNITS k = Some unit
        /\ Num.ltb (Num.abs (Fin q)) (max unit) = true
        /\ forall j u, (j < k)%nat -> nth_error DEFAULT_UNITS j = Some u ->
             Num.ltb (Num.abs (Fin q)) (max u) = false)
  /\ (forall from options now (q : Q),
        opt_units options = None ->
        diff_of from now = Fin q ->
        formatTimeAgo from options now <> Normal emptyString).
Proof.
  assert (Hyear : forall q : Q, exists u,
            In u DEFAULT_UNITS /\ Num.ltb (Num.abs (Fin q)) (max u) = true).
  { intros q.
    exists {| max := Infinity; value := Fin 31536000000; name := "year" |}.
    split; [simpl; tauto|reflexivity]. }
  repeat split.
  - intros i a b Ha Hb.
    do 7 (destruct i as [|i];
          [simpl in Ha, Hb;
           first [discriminate Hb
                 |injection Ha as <-; injection Hb as <-; reflexivity]|]).
    destruct i; discriminate.
  - intros q.
    apply (first_fitting_unit_exists
             (fun u => Num.ltb (Num.abs (Fin q)) (max u)) DEFAULT_UNITS (Hyear q)).
  - intros from options now q Hunits Hd.
    rewrite formatTimeAgo_branches.
    destruct (sub_minute _ _); [discriminate|].
    destruct (max_exceeded _ _); [discriminate|].
    unfold unit_scan, units_of. rewrite Hunits, Hd. cbn [or_default].
    apply scan_finds_fit, Hyear.
Qed.

Lemma DEFAULT_UNITS_well_formed_witness :
  Num.ltb (Fin 60000) (Fin 2760000) = true
  /\ formatTimeAgo (TimeValue 0) no_options (OfNumber (Fin 180000))
     <> Normal emptyString.
Proof.
  destruct DEFAULT_UNITS_well_formed as [Hinc [_ [_ Hscan]]]. split.
  - apply (Hinc 0%nat
             {| max := Fin 60000; value := Fin 1000; name := "second" |}
             {| max := Fin 2760000; value := Fin 60000; name := "minute" |});
      reflexivity.
  - apply (Hscan (TimeValue 0) no_options (OfNumber (Fin 180000)) 180000%Q);
      reflexivity.
Defined.

(** ** Invalid input and exceptions *)

Lemma max_exceeded_NaN options : max_exceeded options NaN = false.
Proof.
  unfold max_exceeded, exceeds_number, exceeds_unit. cbn [Num.abs].
  destruct (opt_max options) as [[unitName|m]|]; try reflexivity.
  - destruct (unitMax _ _) as [m|]; [|reflexivity].
    unfold Num.gtb. now rewrite ltb_NaN_r, andb_false_r.
  - unfold Num.gtb. now rewrite ltb_NaN_r.
Qed.

(** C7, as the code has it: when the rounding option is a named mode or a
    digit count [toFixed] accepts (integer part within 0..100), an invalid
    [from] makes [formatTimeAgo] return the empty string, and no call
    throws, whatever its arguments (the capabilities being total). *)
Theorem formatTimeAgo_invalid_input :
  (forall options now,
     rounding_accepted (rounding_of options) = true ->
     formatTimeAgo InvalidDate options now = Normal emptyString)
  /\ (forall from options now,
        rounding_accepted (rounding_of options) = true ->
        exists out, formatTimeAgo from options now = Normal out).
Proof.
  split.
  - intros options now Hacc. rewrite formatTimeAgo_branches.
    unfold unit_scan, diff_of. cbn [Date_valueOf]. rewrite sub_NaN_r.
    rewrite max_exceeded_NaN. unfold sub_minute. cbn [Num.abs Num.ltb andb].
    now apply scan_NaN.
  - intros from options now Hacc. rewrite formatTimeAgo_branches.
    destruct (sub_minute _ _); [eauto|].
    destruct (max_exceeded _ _); [eauto|].
    now apply scan_accepted.
Qed.

Lemma formatTimeAgo_invalid_input_witness :
  formatTimeAgo InvalidDate no_options (OfNumber (Fin 180000))
  = Normal emptyString
  /\ exists out,
       formatTimeAgo (TimeValue 0) (set_rounding no_options (ByDigits (Fin 2)))
         (OfNumber (Fin 2760000)) = Normal out.
Proof.
  destruct formatTimeAgo_invalid_input as [Hinvalid Hreturns]. split.
  - apply (Hinvalid no_options (OfNumber (Fin 180000))). reflexivity.
  - apply (Hreturns (TimeValue 0) (set_rounding no_options (ByDigits (Fin 2)))
             (OfNumber (Fin 2760000))).
    reflexivity.
Defined.

(** C7 as stated fails: [rounding: 101] is a number, so the magnitude is
    computed by [toFixed(101)], which throws a RangeError; with an invalid
    [from] the call throws instead of returning the empty string. *)
Lemma formatTimeAgo_invalid_input_throws :
  formatTimeAgo InvalidDate (set_rounding no_options (ByDigits (Fin 101)))
    (OfNumber (Fin 180000))
  = Throw RangeError
  /\ formatTimeAgo InvalidDate (set_rounding no_options (ByDigits (Fin 101)))
       (OfNumber (Fin 180000))
     <> Normal emptyString.
Proof.
  split; [reflexivity|discriminate].
Qed.

(** ** The rounding modes *)

Lemma Math_round_nearest (q : Q) :
  (inject_Z (Qfloor (q + (1 # 2))) - (1 # 2) <= q
   /\ q < inject_Z (Qfloor (q + (1 # 2))) + (1 # 2))%Q.
Proof.
  pose proof (Qfloor_le (q + (1 # 2))) as Hle.
  pose proof (Qlt_floor (q + (1 # 2))) as Hlt.
  rewrite inject_Z_plus in Hlt. change (inject_Z 1) with 1%Q in Hlt.
  split; lra.
Qed.

Lemma Math_ceil_least (q : Q) :
  (inject_Z (Qceiling q) - 1 < q /\ q <= inject_Z (Qceiling q))%Q.
Proof.
  pose proof (Qle_ceiling q) as Hle.
  pose proof (Qceiling_lt q) as Hlt.
  unfold Z.sub in Hlt. rewrite inject_Z_plus in Hlt.
  change (inject_Z (- (1))) with (- (1))%Q in Hlt.
  split; lra.
Qed.

Lemma Math_floor_greatest (q : Q) :
  (inject_Z (Qfloor q) <= q /\ q < inject_Z (Qfloor q) + 1)%Q.
Proof.
  pose proof (Qfloor_le q) as Hle.
  pose proof (Qlt_floor q) as Hlt.
  rewrite inject_Z_plus in Hlt. change (inject_Z 1) with 1%Q in Hlt.
  split; lra.
Qed.

Lemma pow10_pos f : (0 <= f)%Z -> (0 < pow10 f)%Q.
Proof.
  intros Hf. unfold pow10. change 0%Q with (inject_Z 0).
  rewrite <- Zlt_Qlt. apply Z.pow_pos_nonneg; lia.
Qed.

Lemma Qnegative_lt a : Num.Qnegative a = true <-> (a < 0)%Q.
Proof. apply Qltb_lt. Qed.

Lemma Qnegative_ge a : Num.Qnegative a = false <-> (0 <= a)%Q.
Proof. apply Qltb_ge. Qed.

(** [Qfixed q f] is a multiple of [10 ^ -f] within half a unit of the last
    digit of [q]. *)
Lemma Qfixed_nearest (q : Q) (f : Z) :
  (0 <= f)%Z ->
  exists n : Z,
    (Qfixed q f == inject_Z n / pow10 f)%Q
    /\ (Qabs (inject_Z n - q * pow10 f) <= 1 # 2)%Q.
Proof.
  intros Hf. pose proof (pow10_pos f Hf) as Hp. unfold Qfixed.
  set (m := Qfloor (Qabs q * pow10 f + (1 # 2))).
  destruct (Math_round_nearest (Qabs q * pow10 f)) as [Hlo Hhi].
  fold m in Hlo, Hhi.
  destruct (Num.Qnegative q) eqn:Hneg.
  - apply Qnegative_lt in Hneg. exists (- m)%Z. split.
    + rewrite Qred_correct, inject_Z_opp. field. lra.
    + rewrite Qabs_neg in Hlo, Hhi by lra.
      rewrite inject_Z_opp. apply Qabs_Qle_condition.
      set (y := (q * pow10 f)%Q) in *.
      assert (Hy : (- q * pow10 f == - y)%Q) by (unfold y; ring).
      rewrite Hy in Hlo, Hhi. split; lra.
  - apply Qnegative_ge in Hneg. exists m. split.
    + now rewrite Qred_correct.
    + rewrite Qabs_pos in Hlo, Hhi by exact Hneg.
      apply Qabs_Qle_condition.
      set (y := (q * pow10 f)%Q) in *. split; lra.
Qed.

Lemma div_finite (diff : num) (unit : UseTimeAgoUnit) (a b : Q) :
  diff = Fin a -> value unit = Fin b -> ~ (b == 0)%Q ->
  exists q, Num.div (Num.abs diff) (value unit) = Fin q
            /\ (q == Qabs a / b)%Q.
Proof.
  intros -> -> Hb. cbn [Num.abs Num.div].
  destruct (Qeq_bool b 0) eqn:E; [apply Qeq_bool_eq in E; contradiction|].
  eexists. split; [reflexivity|apply Qred_correct].
Qed.

(** C6, as the code has it: an absent [rounding] option is 'round'; on a
    finite quotient [|diff| / unit.value] the modes 'round', 'ceil' and
    'floor' yield the nearest integer (a tie going up), the least integer
    not below and the greatest integer not above; a number [d] whose
    integer part [f] lies in 0..100 yields the multiple of [10 ^ -f]
    nearest to the quotient; any other number makes the magnitude
    computation throw a RangeError. *)
Theorem rounding_selects_magnitude :
  (forall from options now,
     opt_rounding options = None ->
     formatTimeAgo from options now
     = formatTimeAgo from (set_rounding options (ByName round)) now)
  /\ (forall diff unit a b,
        diff = Fin a -> value unit = Fin b -> ~ (b == 0)%Q ->
        (exists n : Z,
           getValue (ByName round) diff unit = Normal (Fin (inject_Z n))
           /\ (inject_Z n - (1 # 2) <= Qabs a / b)%Q
           /\ (Qabs a / b < inject_Z n + (1 # 2))%Q)
        /\ (exists n : Z,
              getValue (ByName ceil) diff unit = Normal (Fin (inject_Z n))
              /\ (inject_Z n - 1 < Qabs a / b)%Q
              /\ (Qabs a / b <= inject_Z n)%Q)
        /\ (exists n : Z,
              getValue (ByName floor) diff unit = Normal (Fin (inject_Z n))
              /\ (inject_Z n <= Qabs a / b)%Q
              /\ (Qabs a / b < inject_Z n + 1)%Q)
        /\ (forall d f,
              ToIntegerOrInfinity d = Some f -> (0 <= f <= 100)%Z ->
              exists (n : Z) (r : Q),
                getValue (ByDigits d) diff unit = Normal (Fin r)
                /\ (r == inject_Z n / pow10 f)%Q
                /\ (Qabs (inject_Z n - Qabs a / b * pow10 f) <= 1 # 2)%Q))
  /\ (forall diff unit d,
        rounding_accepted (ByDigits d) = false ->
        getValue (ByDigits d) diff unit = Throw RangeError).
Proof.
  split; [|split].
  - intros from options now Hr. unfold formatTimeAgo, set_rounding.
    cbn [opt_max opt_fullDateFormatter opt_locale opt_relativeTimeOptions
         opt_showSecond opt_rounding opt_units].
    now rewrite Hr.
  - intros diff unit a b Hd Hv Hb.
    destruct (div_finite diff unit a b Hd Hv Hb) as [q [Hq Heq]].
    unfold getValue. rewrite Hq. cbn [roundFn Math_round Math_ceil Math_floor].
    repeat split.
    + exists (Qfloor (q + (1 # 2))). rewrite <- Heq.
      split; [reflexivity|apply Math_round_nearest].
    + exists (Qceiling q). rewrite <- Heq.
      split; [reflexivity|apply Math_ceil_least].
    + exists (Qfloor q). rewrite <- Heq.
      split; [reflexivity|apply Math_floor_greatest].
    + intros d f Hf [Hf0 Hf100]. unfold toFixed. rewrite Hf.
      destruct (f <? 0)%Z eqn:E0; [apply Z.ltb_lt in E0; lia|].
      destruct (100 <? f)%Z eqn:E1; [apply Z.ltb_lt in E1; lia|].
      cbn [orb]. destruct (Qfixed_nearest q f Hf0) as [n [Hn Habs]].
      exists n, (Qfixed q f). rewrite <- Heq. repeat split; assumption.
  - intros diff unit d Hrej. unfold getValue. now apply roundFn_rejected.
Qed.

Lemma rounding_selects_magnitude_witness :
  formatTimeAgo (TimeValue 0) no_options (OfNumber (Fin 2760000))
  = formatTimeAgo (TimeValue 0) (set_rounding no_options (ByName round))
      (OfNumber (Fin 2760000))
  /\ (exists n : Z,
        getValue (ByName floor) (Fin 2760000)
          {| max := Fin 72000000; value := Fin 3600000; name := "hour" |}
        = Normal (Fin (inject_Z n))
        /\ (inject_Z n <= Qabs 2760000 / 3600000)%Q
        /\ (Qabs 2760000 / 3600000 < inject_Z n + 1)%Q)
  /\ getValue (ByDigits (Fin 101)) (Fin 2760000)
       {| max := Fin 72000000; value := Fin 3600000; name := "hour" |}
     = Throw RangeError.
Proof.
  destruct rounding_selects_magnitude as [Hdefault [Hmodes Hthrow]].
  split; [|split].
  - apply (Hdefault (TimeValue 0) no_options (OfNumber (Fin 2760000))).
    reflexivity.
  - apply (Hmodes (Fin 2760000)
             {| max := Fin 72000000; value := Fin 3600000; name := "hour" |}
             2760000%Q 3600000%Q); [reflexivity|reflexivity|].
    intros H. discriminate H.
  - apply (Hthrow (Fin 2760000)
             {| max := Fin 72000000; value := Fin 3600000; name := "hour" |}
             (Fin 101)).
    reflexivity.
Defined.

(** C6 as stated fails: [rounding: 101] is a number, yet the magnitude is
    not rounded to 101 decimal places: computing it throws, and so does
    the call. *)
Lemma rounding_101_throws :
  getValue (ByDigits (Fin 101)) (Fin 2760000)
    {| max := Fin 72000000; value := Fin 3600000; name := "hour" |}
  = Throw RangeError
  /\ formatTimeAgo (TimeValue 0) (set_rounding no_options (ByDigits (Fin 101)))
       (OfNumber (Fin 2760000))
     = Throw RangeError.
Proof.
  split; reflexivity.
Qed.

(** ** The sign convention *)

Lemma leb_0_inject_Z n : (0 <= n)%Z -> Num.leb (Fin 0) (Fin (inject_Z n)) = true.
Proof.
  intros Hn. cbn [Num.leb]. apply Qle_bool_iff.
  change 0%Q with (inject_Z 0). now rewrite <- Zle_Qle.
Qed.

Lemma Qfloor_nonnegative x : (0 <= x)%Q -> (0 <= Qfloor x)%Z.
Proof. intros Hx. exact (Qfloor_resp_le 0 x Hx). Qed.

Lemma Qceiling_nonnegative x : (0 <= x)%Q -> (0 <= Qceiling x)%Z.
Proof. intros Hx. exact (Qceiling_resp_le 0 x Hx). Qed.

Lemma roundFn_nonnegative rounding q magnitude :
  (0 <= q)%Q ->
  roundFn rounding (Fin q) = Normal magnitude ->
  Num.leb (Fin 0) magnitude = true.
Proof.
  intros Hq. destruct rounding as [[]|d]; cbn [roundFn].
  - intros H. injection H as <-. apply leb_0_inject_Z.
    apply (Qfloor_nonnegative (q + (1 # 2))). lra.
  - intros H. injection H as <-. apply leb_0_inject_Z.
    now apply (Qceiling_nonnegative q).
  - intros H. injection H as <-. apply leb_0_inject_Z.
    now apply (Qfloor_nonnegative q).
  - unfold toFixed. destruct (ToIntegerOrInfinity d) as [f|]; [|discriminate].
    destruct (f <? 0)%Z eqn:E0; [discriminate|].
    destruct (100 <? f)%Z; [discriminate|]. cbn [orb].
    intros H. injection H as <-. apply Z.ltb_ge in E0.
    pose proof (pow10_pos f E0) as Hp.
    unfold Qfixed. apply Qnegative_ge in Hq as Hneg. rewrite Hneg.
    cbn [Num.leb]. apply Qle_bool_iff. rewrite Qred_correct.
    apply Qle_shift_div_l; [exact Hp|]. rewrite Qmult_0_l.
    change 0%Q with (inject_Z 0). rewrite <- Zle_Qle.
    apply Qfloor_nonnegative.
    pose proof (Qabs_nonneg q) as Ha.
    pose proof (Qmult_le_0_compat _ _ Ha (Qlt_le_weak _ _ Hp)). lra.
Qed.

(** Over a positive unit size the magnitude of a difference is not
    negative. *)
Lemma getValue_nonnegative rounding diff unit b magnitude :
  diff <> NaN -> value unit = Fin b -> (0 < b)%Q ->
  getValue rounding diff unit = Normal magnitude ->
  Num.leb (Fin 0) magnitude = true.
Proof.
  intros Hd Hv Hb. unfold getValue. rewrite Hv.
  assert (Hnn : Num.Qnegative b = false) by (apply Qnegative_ge; lra).
  assert (Hnz : Qeq_bool b 0 = false).
  { destruct (Qeq_bool b 0) eqn:E; [|reflexivity].
    apply Qeq_bool_eq in E. lra. }
  destruct diff as [|s|a]; [congruence| |]; cbn [Num.abs Num.div].
  - rewrite Hnn. cbn [xorb]. intros H.
    assert (Hacc : rounding_accepted rounding = true).
    { destruct (rounding_accepted rounding) eqn:A; [reflexivity|].
      rewrite roundFn_rejected in H by assumption. discriminate. }
    destruct rounding as [[]|d]; cbn [roundFn] in H;
      try (injection H as <-; reflexivity).
    unfold toFixed in H. cbn [rounding_accepted] in Hacc.
    destruct (ToIntegerOrInfinity d) as [f|]; [|discriminate].
    destruct ((f <? 0)%Z || (100 <? f)%Z); [discriminate|].
    injection H as <-. reflexivity.
  - rewrite Hnz. apply roundFn_nonnegative. rewrite Qred_correct.
    apply Qle_shift_div_l; [exact Hb|]. rewrite Qmult_0_l. apply Qabs_nonneg.
Qed.

(** C5, as the code has it: every relative phrase [formatTimeAgo] renders
    past the sub-minute early return comes from [format] on a unit of the
    table: the value handed to the formatter is the negated magnitude when
    [from] is in the past ([now - from > 0]) and the magnitude itself
    otherwise, a magnitude that is not negative when the unit's size is
    positive. *)
Theorem formatTimeAgo_sign_convention from options now rtf val unitName :
  sub_minute options (diff_of from now) = false ->
  formatTimeAgo from options now = Normal (rtf_format rtf val unitName) ->
  exists unit magnitude,
    In unit (units_of options)
    /\ unitName = name unit
    /\ getValue (rounding_of options) (diff_of from now) unit = Normal magnitude
    /\ (Num.gtb (diff_of from now) (Fin 0) = true -> val = Num.neg magnitude)
    /\ (Num.gtb (diff_of from now) (Fin 0) = false -> val = magnitude)
    /\ (forall b, value unit = Fin b -> (0 < b)%Q ->
          Num.leb (Fin 0) magnitude = true).
Proof.
  intros Hsub H. rewrite formatTimeAgo_branches, Hsub in H.
  destruct (max_exceeded _ _); [discriminate|].
  unfold unit_scan in H. pose proof H as Hscan.
  apply scan_returns_format in H; [|tauto].
  destruct H as [H|[unit [Hin H]]]; [discriminate|].
  unfold format in H.
  destruct (getValue (rounding_of options) (diff_of from now) unit)
    as [magnitude|e] eqn:Hv; [|discriminate].
  cbn [bind] in H.
  assert (Hval : val = if Num.gtb (diff_of from now) (Fin 0)
                       then Num.neg magnitude else magnitude) by congruence.
  assert (Hname : unitName = name unit) by congruence.
  exists unit, magnitude. repeat split; try assumption.
  - intros Hpast. now rewrite Hpast in Hval.
  - intros Hpast. now rewrite Hpast in Hval.
  - intros b Hb Hpos.
    assert (Hnan : diff_of from now <> NaN).
    { intros Hnan. rewrite Hnan, scan_NaN in Hscan; [discriminate|].
      now apply getValue_Normal in Hv. }
    exact (getValue_nonnegative _ _ _ _ _ Hnan Hb Hpos Hv).
Qed.

Lemma formatTimeAgo_sign_convention_witness :
  exists unit magnitude,
    In unit (units_of no_options)
    /\ "minute"%string = name unit
    /\ getValue (rounding_of no_options)
         (diff_of (TimeValue 0) (OfNumber (Fin 180000))) unit = Normal magnitude
    /\ (Num.gtb (diff_of (TimeValue 0) (OfNumber (Fin 180000))) (Fin 0) = true ->
        Fin (-3) = Num.neg magnitude)
    /\ (Num.gtb (diff_of (TimeValue 0) (OfNumber (Fin 180000))) (Fin 0) = false ->
        Fin (-3) = magnitude)
    /\ (forall b, value unit = Fin b -> (0 < b)%Q ->
          Num.leb (Fin 0) magnitude = true).
Proof.
  apply (formatTimeAgo_sign_convention (TimeValue 0) no_options
           (OfNumber (Fin 180000)) (rtf_of no_options) (Fin (-3)) "minute"%string).
  - reflexivity.
  - reflexivity.
Defined.

(** C5 as stated fails on the sub-minute early return: [from] lies 30
    seconds in the past, the phrase returned is a relative one in seconds,
    and the value handed to the formatter is the literal 0, not the negated
    magnitude (30 seconds, negated). *)
Lemma formatTimeAgo_sub_minute_value_not_negated :
  let from := TimeValue 0 in
  let now := OfNumber (Fin 30000) in
  let second := {| max := Fin 60000; value := Fin 1000; name := "second" |} in
  Num.gtb (diff_of from now) (Fin 0) = true
  /\ formatTimeAgo from no_options now
     = Normal (rtf_format (rtf_of no_options) (Fin 0) "second")
  /\ getValue (rounding_of no_options) (diff_of from now) second
     = Normal (Fin 30)
  /\ Fin 0 <> Num.neg (Fin 30).
Proof.
  repeat split; try reflexivity. discriminate.
Qed.

(** ** The default table under 'round' and 'ceil' *)

Lemma Math_round_positive q :
  (1 # 2 <= q)%Q -> Num.leb (Math_round (Fin q)) (Fin 0) = false.
Proof.
  intros Hq. cbn [Math_round Num.leb].
  destruct (Qle_bool _ _) eqn:E; [|reflexivity].
  apply Qle_bool_iff in E. change 0%Q with (inject_Z 0) in E.
  rewrite <- Zle_Qle in E.
  assert (H1 : (Qfloor 1 <= Qfloor (q + (1 # 2)))%Z)
    by (apply Qfloor_resp_le; lra).
  change (Qfloor 1) with 1%Z in H1. lia.
Qed.

Lemma Math_ceil_positive q :
  (0 < q)%Q -> Num.leb (Math_ceil (Fin q)) (Fin 0) = false.
Proof.
  intros Hq. cbn [Math_ceil Num.leb].
  destruct (Qle_bool _ _) eqn:E; [|reflexivity].
  apply Qle_bool_iff in E. pose proof (Qle_ceiling q). lra.
Qed.

(** In the default table an entry reached by the scan, the first apart,
    never has a magnitude [<= 0] under 'round' or 'ceil': each [max] is at
    least half the next unit's size. *)
Lemma DEFAULT_UNITS_no_fallback rounding a j previous unit val :
  rounding = ByName round \/ rounding = ByName ceil ->
  nth_error DEFAULT_UNITS j = Some previous ->
  nth_error DEFAULT_UNITS (S j) = Some unit ->
  Num.ltb (Num.abs (Fin a)) (max previous) = false ->
  getValue rounding (Fin a) unit = Normal val ->
  Num.leb val (Fin 0) = false.
Proof.
  intros Hr Hp Hu Hlt Hv.
  assert (Hhalf : exists b q,
            value unit = Fin b /\ ~ (b == 0)%Q
            /\ Num.div (Num.abs (Fin a)) (value unit) = Fin q
            /\ (q == Qabs a / b)%Q /\ (1 # 2 <= Qabs a / b)%Q).
  { cbn [Num.abs] in *.
    do 6 (destruct j as [|j];
          [injection Hp as <-; injection Hu as <-;
           cbn [max Num.ltb] in Hlt; apply Qltb_ge in Hlt;
           cbn [value];
           match goal with
           | |- exists b q, Fin ?v = _ /\ _ =>
               assert (Hnz : ~ (v == 0)%Q) by (intros H0; discriminate H0);
               destruct (div_finite (Fin a) {| max := NaN; value := Fin v;
                                               name := "" |} a v
                           eq_refl eq_refl Hnz) as [q [Hq Heq]];
               exists v, q; repeat split;
               [exact Hnz|exact Hq|exact Heq|
                apply Qle_shift_div_l; [reflexivity|lra]]
           end|]).
    destruct j as [|j]; [discriminate Hu|]. destruct j; discriminate Hp. }
  destruct Hhalf as [b [q [Hb [Hnz [Hq [Heq Hge]]]]]].
  unfold getValue in Hv. rewrite Hq in Hv. rewrite <- Heq in Hge.
  destruct Hr as [-> | ->]; cbn [roundFn] in Hv; injection Hv as <-.
  - now apply Math_round_positive.
  - apply Math_ceil_positive. lra.
Qed.

(** With the default table and rounding 'round' (the default) or 'ceil',
    the phrase returned past the early return and the [max] threshold is
    the one for the first unit whose bucket fits. *)
Theorem formatTimeAgo_default_first_fitting_unit from options now k unit :
  opt_units options = None ->
  rounding_of options = ByName round \/ rounding_of options = ByName ceil ->
  sub_minute options (diff_of from now) = false ->
  max_exceeded options (diff_of from now) = false ->
  nth_error DEFAULT_UNITS k = Some unit ->
  Num.ltb (Num.abs (diff_of from now)) (max unit) = true ->
  (forall j u, (j < k)%nat -> nth_error DEFAULT_UNITS j = Some u ->
     Num.ltb (Num.abs (diff_of from now)) (max u) = false) ->
  formatTimeAgo from options now
  = format (rtf_of options) (rounding_of options) (diff_of from now) unit.
Proof.
  intros Hunits Hr Hsub Hmax Hk Hfit Hbefore.
  rewrite formatTimeAgo_branches, Hsub, Hmax. unfold unit_scan, units_of.
  rewrite Hunits. cbn [or_default].
  apply scan_first_fitting_unit with (k := k); try assumption.
  intros [|j] u val Hj Hu Hv; [lia|].
  destruct (nth_error DEFAULT_UNITS j) as [previous|] eqn:Hp.
  - destruct (diff_of from now) as [|s|a] eqn:Hd.
    + discriminate Hfit.
    + destruct unit as [[|[]|m] v n]; discriminate Hfit.
    + apply (DEFAULT_UNITS_no_fallback (rounding_of options) a j previous u val);
        try assumption.
      apply (Hbefore j); [lia|exact Hp].
  - apply nth_error_None in Hp.
    assert (Hsome : nth_error DEFAULT_UNITS (S j) <> None) by congruence.
    apply nth_error_Some in Hsome. lia.
Qed.

Lemma formatTimeAgo_default_first_fitting_unit_witness :
  formatTimeAgo (TimeValue 0) no_options (OfNumber (Fin 2760000))
  = format (rtf_of no_options) (rounding_of no_options)
      (diff_of (TimeValue 0) (OfNumber (Fin 2760000)))
      {| max := Fin 72000000; value := Fin 3600000; name := "hour" |}.
Proof.
  apply (formatTimeAgo_default_first_fitting_unit (TimeValue 0) no_options
           (OfNumber (Fin 2760000)) 2%nat).
  - reflexivity.
  - left. reflexivity.
  - reflexivity.
  - reflexivity.
  - reflexivity.
  - reflexivity.
  - intros [|[|j]] u Hj Hu; try lia; injection Hu as <-; reflexivity.
Defined.

(** ** When a call throws, and when it returns the full date *)

(** A call throws exactly when the rounding option is a digit count that
    [toFixed] rejects and the unit scan is reached on a table that is not
    empty; what is thrown is the RangeError of [toFixed]. *)
Theorem formatTimeAgo_throws_iff from options now e :
  formatTimeAgo from options now = Throw e
  <-> e = RangeError
      /\ rounding_accepted (rounding_of options) = false
      /\ sub_minute options (diff_of from now) = false
      /\ max_exceeded options (diff_of from now) = false
      /\ units_of options <> [].
Proof.
  rewrite formatTimeAgo_branches. split.
  - destruct (sub_minute _ _); [discriminate|].
    destruct (max_exceeded _ _); [discriminate|].
    unfold unit_scan. intros H.
    destruct (rounding_accepted (rounding_of options)) eqn:Hacc.
    + destruct (scan_accepted (rtf_of options) (rounding_of options)
                  (diff_of from now) (units_of options) (units_of options)
                  0 Hacc) as [out Hout].
      congruence.
    + destruct (units_of options) as [|u units] eqn:Hu; [discriminate|].
      rewrite scan_rejected in H by assumption.
      repeat split; congruence.
  - intros [-> [Hrej [-> [-> Hne]]]]. unfold unit_scan.
    destruct (units_of options) as [|u units]; [congruence|].
    now apply scan_rejected.
Qed.

Lemma formatTimeAgo_throws_iff_witness :
  formatTimeAgo (TimeValue 0) (set_rounding no_options (ByDigits (Fin (-1))))
    (OfNumber (Fin 180000))
  = Throw RangeError.
Proof.
  apply (formatTimeAgo_throws_iff (TimeValue 0)
           (set_rounding no_options (ByDigits (Fin (-1))))
           (OfNumber (Fin 180000)) RangeError).
  repeat split; try reflexivity. discriminate.
Defined.

(** The full date is returned exactly when the call is past the sub-minute
    early return and a [max] guard fires; the date handed to the formatter
    is then [from] itself, and it is a valid date, so that the default
    formatter's [toISOString] has a time value to print. *)
Theorem formatTimeAgo_fullDate_iff from options now fullDateFormatter date :
  formatTimeAgo from options now = Normal (fullDate fullDateFormatter date)
  <-> fullDateFormatter = fullDateFormatter_of options
      /\ date = from
      /\ (exists t, from = TimeValue t)
      /\ sub_minute options (diff_of from now) = false
      /\ max_exceeded options (diff_of from now) = true.
Proof.
  rewrite formatTimeAgo_branches. split.
  - destruct (sub_minute _ _); [discriminate|].
    destruct (max_exceeded _ _) eqn:Hmax.
    + intros H. injection H as <- <-. repeat split.
      destruct from as [|t]; [|eauto].
      unfold diff_of in Hmax. cbn [Date_valueOf] in Hmax.
      rewrite sub_NaN_r, max_exceeded_NaN in Hmax. discriminate.
    + intros H. now apply unit_scan_no_fullDate in H.
  - intros [-> [-> [_ [-> ->]]]]. reflexivity.
Qed.

Lemma formatTimeAgo_fullDate_iff_witness :
  DEFAULT_FORMATTER = fullDateFormatter_of (only_max (MaxNumber (Fin 86400000)))
  /\ TimeValue 0 = TimeValue 0
  /\ (exists t, TimeValue 0 = TimeValue t)
  /\ sub_minute (only_max (MaxNumber (Fin 86400000)))
       (diff_of (TimeValue 0) (OfNumber (Fin 90000000))) = false
  /\ max_exceeded (only_max (MaxNumber (Fin 86400000)))
       (diff_of (TimeValue 0) (OfNumber (Fin 90000000))) = true.
Proof.
  apply (formatTimeAgo_fullDate_iff (TimeValue 0)
           (only_max (MaxNumber (Fin 86400000))) (OfNumber (Fin 90000000))
           DEFAULT_FORMATTER (TimeValue 0)).
  reflexivity.
Defined.

(** A numeric [max] is a strict bound: a difference that does not exceed it
    (one equal to it included, and any difference when [max] is [NaN] or
    [+Infinity]) is never rendered as the full date; the result is that of
    the rest of the function. *)
Theorem formatTimeAgo_max_number_not_exceeded from options now m :
  opt_max options = Some (MaxNumber m) ->
  m = NaN \/ m = Infinity
  \/ (exists a q, diff_of from now = Fin a /\ m = Fin q /\ (Qabs a <= q)%Q) ->
  (forall fullDateFormatter date,
     formatTimeAgo from options now <> Normal (fullDate fullDateFormatter date))
  /\ formatTimeAgo from options now
     = if sub_minute options (diff_of from now)
       then Normal (rtf_format (rtf_of options) (Fin 0) "second")
       else unit_scan from options now.
Proof.
  intros Hm Hle.
  assert (Hex : max_exceeded options (diff_of from now) = false).
  { unfold max_exceeded. rewrite Hm. cbn [exceeds_number exceeds_unit orb].
    rewrite orb_false_r. unfold Num.gtb.
    destruct Hle as [-> | [-> | [a [q [-> [-> Hq]]]]]].
    - reflexivity.
    - destruct (Num.abs (diff_of from now)) as [|[]|]; reflexivity.
    - cbn [Num.abs Num.ltb]. now apply Qltb_ge. }
  rewrite formatTimeAgo_branches, Hex. split; [|reflexivity].
  intros f d. destruct (sub_minute _ _); [discriminate|].
  apply unit_scan_no_fullDate.
Qed.

Lemma formatTimeAgo_max_number_not_exceeded_witness :
  (forall fullDateFormatter date,
     formatTimeAgo (TimeValue 0) (only_max (MaxNumber (Fin 86400000)))
       (OfNumber (Fin 86400000))
     <> Normal (fullDate fullDateFormatter date))
  /\ formatTimeAgo (TimeValue 0) (only_max (MaxNumber (Fin 86400000)))
       (OfNumber (Fin 86400000))
     = if sub_minute (only_max (MaxNumber (Fin 86400000)))
            (diff_of (TimeValue 0) (OfNumber (Fin 86400000)))
       then Normal (rtf_format (rtf_of (only_max (MaxNumber (Fin 86400000))))
                      (Fin 0) "second")
       else unit_scan (TimeValue 0) (only_max (MaxNumber (Fin 86400000)))
              (OfNumber (Fin 86400000)).
Proof.
  apply (formatTimeAgo_max_number_not_exceeded (TimeValue 0)
           (only_max (MaxNumber (Fin 86400000))) (OfNumber (Fin 86400000))
           (Fin 86400000)).
  - reflexivity.
  - right. right. exists 86400000%Q, 86400000%Q.
    repeat split; try reflexivity. discriminate.
Defined.

(** ** Tables of positive unit sizes *)

Lemma positive_size_spec unit :
  positive_size unit = true -> exists b, value unit = Fin b /\ (0 < b)%Q.
Proof.
  unfold positive_size. destruct (value unit) as [| |b]; try discriminate.
  intros H. apply Qltb_lt in H. eauto.
Qed.

Lemma roundFn_Inf rounding s :
  rounding_accepted rounding = true ->
  roundFn rounding (Inf s) = Normal (Inf s).
Proof.
  intros Hacc.
  destruct (roundFn_accepted rounding (Inf s) Hacc) as [r Hr]. rewrite Hr.
  destruct rounding as [[]|d]; cbn [roundFn Math_round Math_ceil Math_floor] in Hr;
    try congruence.
  unfold toFixed in Hr. destruct (ToIntegerOrInfinity d); [|discriminate].
  destruct ((_ <? _) || (_ <? _)); congruence.
Qed.

Lemma roundFn_finite rounding q val :
  roundFn rounding (Fin q) = Normal val -> exists m, val = Fin m.
Proof.
  destruct rounding as [[]|d]; cbn [roundFn Math_round Math_ceil Math_floor];
    try (intros H; injection H as <-; eauto).
  unfold toFixed. destruct (ToIntegerOrInfinity d); [|discriminate].
  destruct ((_ <? _) || (_ <? _)); [discriminate|].
  intros H; injection H as <-; eauto.
Qed.

Lemma div_positive_size a unit b :
  value unit = Fin b -> (0 < b)%Q ->
  exists q, Num.div (Num.abs (Fin a)) (value unit) = Fin q
            /\ (q == Qabs a / b)%Q.
Proof.
  intros Hb Hpos. apply (div_finite (Fin a) unit a b eq_refl Hb). lra.
Qed.

(** On an infinite difference no guard of the scan holds either, the unit
    sizes being positive. *)
Lemma scan_infinite rtf rounding units s : forall rest idx,
  rounding_accepted rounding = true ->
  forallb positive_size rest = true ->
  scan rtf rounding (Inf s) units idx rest = Normal emptyString.
Proof.
  induction rest as [|u rest IH]; intros idx Hacc Hpos; [reflexivity|].
  cbn [forallb] in Hpos. apply andb_true_iff in Hpos as [Hu Hrest].
  destruct (positive_size_spec u Hu) as [b [Hb Hb0]].
  cbn [scan]. unfold getValue. rewrite Hb. cbn [Num.abs Num.div].
  replace (Num.Qnegative b) with false
    by (symmetry; apply Qnegative_ge; lra).
  cbn [xorb]. rewrite roundFn_Inf by assumption. cbn [bind Num.leb].
  replace (Num.ltb (Inf false) (max u)) with false
    by (destruct (max u) as [|[]|]; reflexivity).
  now apply IH.
Qed.

Lemma open_bucket_fits units a :
  existsb open_bucket units = true ->
  exists u, In u units /\ Num.ltb (Num.abs (Fin a)) (max u) = true.
Proof.
  intros H. apply existsb_exists in H as [u [Hin Hu]].
  exists u. split; [exact Hin|].
  unfold open_bucket in Hu. destruct (max u) as [|[]|]; try discriminate.
  reflexivity.
Qed.

(** On a table of positive unit sizes with an unbounded bucket, and under
    a rounding the magnitude function accepts, the empty string is returned
    exactly when the difference is not a finite number ([NaN] or infinite)
    and no [max] guard fires. *)
Theorem formatTimeAgo_empty_string_iff from options now :
  rounding_accepted (rounding_of options) = true ->
  forallb positive_size (units_of options) = true ->
  existsb open_bucket (units_of options) = true ->
  formatTimeAgo from options now = Normal emptyString
  <-> (forall q, diff_of from now <> Fin q)
      /\ max_exceeded options (diff_of from now) = false.
Proof.
  intros Hacc Hpos Hopen. rewrite formatTimeAgo_branches. split.
  - destruct (sub_minute _ _); [discriminate|].
    destruct (max_exceeded _ _); [discriminate|].
    intros H. split; [|reflexivity]. intros q Hq.
    unfold unit_scan in H. rewrite Hq in H. revert H.
    apply scan_finds_fit. now apply open_bucket_fits.
  - intros [Hnf ->]. unfold sub_minute, unit_scan.
    destruct (diff_of from now) as [|s|q].
    + cbn [Num.abs Num.ltb andb]. now apply scan_NaN.
    + cbn [Num.abs Num.ltb andb]. now apply scan_infinite.
    + now elim (Hnf q).
Qed.

Lemma formatTimeAgo_empty_string_iff_witness :
  formatTimeAgo (TimeValue 0) no_options (OfNumber Infinity)
  = Normal emptyString.
Proof.
  apply (formatTimeAgo_empty_string_iff (TimeValue 0) no_options
           (OfNumber Infinity)); try reflexivity.
  split; [discriminate|reflexivity].
Defined.



(** ** What the fallback to the previous unit is for *)

Lemma inject_Z_positive z : (1 <= z)%Z -> (0 < inject_Z z)%Q.
Proof. intros Hz. change 0%Q with (inject_Z 0). rewrite <- Zlt_Qlt. lia. Qed.

Lemma Qfloor_at_least_one x : (1 <= x)%Q -> (1 <= Qfloor x)%Z.
Proof. intros Hx. exact (Qfloor_resp_le 1 x Hx). Qed.

Lemma Qceiling_at_least_one x : (1 <= x)%Q -> (1 <= Qceiling x)%Z.
Proof. intros Hx. exact (Qceiling_resp_le 1 x Hx). Qed.

Lemma pow10_at_least_one f : (0 <= f)%Z -> (1 <= pow10 f)%Q.
Proof.
  intros Hf. unfold pow10. change 1%Q with (inject_Z 1). rewrite <- Zle_Qle.
  pose proof (Z.pow_pos_nonneg 10 f). lia.
Qed.

(** A quotient of at least 1 has a positive magnitude under every rounding
    the magnitude function accepts. *)
Lemma roundFn_positive rounding q val :
  (1 <= q)%Q ->
  roundFn rounding (Fin q) = Normal val ->
  exists m, val = Fin m /\ (0 < m)%Q.
Proof.
  intros Hq. destruct rounding as [[]|d]; cbn [roundFn].
  - intros H. injection H as <-. eexists. split; [reflexivity|].
    apply inject_Z_positive, (Qfloor_at_least_one (q + (1 # 2))). lra.
  - intros H. injection H as <-. eexists. split; [reflexivity|].
    now apply inject_Z_positive, (Qceiling_at_least_one q).
  - intros H. injection H as <-. eexists. split; [reflexivity|].
    now apply inject_Z_positive, (Qfloor_at_least_one q).
  - unfold toFixed. destruct (ToIntegerOrInfinity d) as [f|]; [|discriminate].
    destruct (f <? 0)%Z eqn:E0; [discriminate|].
    destruct (100 <? f)%Z; [discriminate|]. cbn [orb].
    intros H. injection H as <-. apply Z.ltb_ge in E0.
    pose proof (pow10_pos f E0) as Hp.
    pose proof (pow10_at_least_one f E0) as Hp1.
    eexists. split; [reflexivity|]. unfold Qfixed.
    replace (Num.Qnegative q) with false
      by (symmetry; apply Qnegative_ge; lra).
    rewrite Qred_correct. apply Qlt_shift_div_l; [exact Hp|].
    rewrite Qmult_0_l. apply inject_Z_positive.
    apply (Qfloor_at_least_one (Qabs q * pow10 f + (1 # 2))).
    rewrite Qabs_pos by lra.
    assert (Hqp : (1 * pow10 f <= q * pow10 f)%Q)
      by (apply Qmult_le_compat_r; lra).
    lra.
Qed.

Lemma size_within_max_spec unit a :
  size_within_max unit = true ->
  Num.ltb (Num.abs (Fin a)) (max unit) = false ->
  exists b, value unit = Fin b /\ (0 < b)%Q /\ (b <= Qabs a)%Q.
Proof.
  unfold size_within_max. intros H Hlt. apply andb_true_iff in H as [Hp Hle].
  destruct (positive_size_spec unit Hp) as [b [Hb Hb0]].
  exists b. repeat split; [exact Hb|exact Hb0|].
  rewrite Hb in Hle. cbn [Num.abs] in Hlt.
  destruct (max unit) as [|[]|M]; try discriminate.
  cbn [Num.leb] in Hle. cbn [Num.ltb] in Hlt.
  apply Qle_bool_iff in Hle. apply Qltb_ge in Hlt. lra.
Qed.

(** [format] on a unit no larger than the difference. *)
Lemma format_positive rtf rounding a unit b rtf' val unitName :
  value unit = Fin b -> (0 < b)%Q -> (b <= Qabs a)%Q ->
  format rtf rounding (Fin a) unit = Normal (rtf_format rtf' val unitName) ->
  exists m, (0 < m)%Q
            /\ val = if Num.gtb (Fin a) (Fin 0) then Fin (- m) else Fin m.
Proof.
  intros Hb Hb0 Hle. unfold format, getValue.
  destruct (div_positive_size a unit b Hb Hb0) as [q [-> Hq]].
  destruct (roundFn rounding (Fin q)) as [magnitude|e] eqn:Hr; [|discriminate].
  cbn [bind]. intros H.
  destruct (roundFn_positive rounding q magnitude) as [m [-> Hm]].
  - rewrite Hq. apply Qle_shift_div_l; [exact Hb0|lra].
  - exact Hr.
  - exists m. split; [exact Hm|].
    destruct (Num.gtb (Fin a) (Fin 0)); cbn [Num.neg] in H; congruence.
Qed.

Section Fallback.

Variable rtf : RelativeTimeFormat.
Variable rounding : Rounding.
Variable a : Q.
Variable units : list UseTimeAgoUnit.

Hypothesis units_sized : forallb size_within_max units = true.
Hypothesis first_size :
  forall first, nth_error units 0 = Some first ->
                Num.leb (value first) (Fin (Qabs a)) = true.

Lemma scan_never_zero rtf' val unitName : forall rest pre,
  units = pre ++ rest ->
  (forall u, In u pre -> Num.ltb (Num.abs (Fin a)) (max u) = false) ->
  scan rtf rounding (Fin a) units (List.length pre) rest
  = Normal (rtf_format rtf' val unitName) ->
  exists m, (0 < m)%Q
            /\ val = if Num.gtb (Fin a) (Fin 0) then Fin (- m) else Fin m.
Proof.
  assert (Hsized : forall u, In u units -> size_within_max u = true)
    by (apply forallb_forall; exact units_sized).
  induction rest as [|u rest IH]; intros pre Hunits Hpre; [discriminate|].
  assert (Hu : In u units) by (rewrite Hunits; apply in_or_app; right; now left).
  cbn [scan].
  destruct (getValue rounding (Fin a) u) as [v|e] eqn:Hv; [|discriminate].
  cbn [bind].
  destruct (if Num.leb v (Fin 0)
            then elem_at units (Z.of_nat (List.length pre) - 1) else None)
    as [previous|] eqn:Hfb.
  - (* the fallback: [previous] is the last entry passed over *)
    destruct (Num.leb v (Fin 0)); [|discriminate].
    destruct pre as [|p pre'] eqn:Hp; [discriminate|]. rewrite <- Hp in *.
    rewrite elem_at_previous in Hfb by (rewrite Hp; simpl; lia).
    assert (Hin : In previous pre).
    { rewrite Hunits, nth_error_app1 in Hfb
        by (rewrite Hp; simpl; lia).
      eapply nth_error_In; eassumption. }
    destruct (size_within_max_spec previous a) as [b [Hb [Hb0 Hle]]].
    + apply Hsized. rewrite Hunits. apply in_or_app. now left.
    + now apply Hpre.
    + now apply format_positive with (b := b).
  - destruct (Num.ltb (Num.abs (Fin a)) (max u)) eqn:Hfit.
    + (* the unit fits: its magnitude is not [<= 0], or it is the first *)
      pose proof (Hsized u Hu) as Hpos. unfold size_within_max in Hpos.
      apply andb_true_iff in Hpos as [Hpos _].
      destruct (positive_size_spec u Hpos) as [b [Hb Hb0]].
      destruct (Num.leb v (Fin 0)) eqn:Hle.
      * destruct pre as [|p pre'].
        -- intros H. apply format_positive with (b := b) in H;
             [exact H|exact Hb|exact Hb0|].
           specialize (first_size u). rewrite Hunits in first_size.
           specialize (first_size eq_refl). rewrite Hb in first_size.
           cbn [Num.leb] in first_size. now apply Qle_bool_iff.
        -- rewrite elem_at_previous in Hfb by (simpl; lia).
           rewrite Hunits, nth_error_app1 in Hfb by (simpl; lia).
           assert (Hsome : nth_error (p :: pre') (List.length (p :: pre') - 1)
                           <> None)
             by (apply nth_error_Some; simpl; lia).
           congruence.
      * unfold format. rewrite Hv. cbn [bind]. intros H.
        unfold getValue in Hv.
        destruct (div_positive_size a u b Hb Hb0) as [q [Hq _]].
        rewrite Hq in Hv. destruct (roundFn_finite _ _ _ Hv) as [m ->].
        exists m. split.
        -- cbn [Num.leb] in Hle. destruct (Qlt_le_dec 0 m) as [Hm|Hm];
             [exact Hm|].
           apply Qle_bool_iff in Hm. congruence.
        -- destruct (Num.gtb (Fin a) (Fin 0)); cbn [Num.neg] in H; congruence.
    + replace (S (List.length pre)) with (List.length (pre ++ [u]))
        by (rewrite length_app; simpl; lia).
      apply IH.
      * now rewrite <- app_assoc.
      * intros u' Hu'. apply in_app_or in Hu' as [Hu'|[<-|[]]];
          [now apply Hpre|exact Hfit].
Qed.

End Fallback.

(** When every unit's size is positive and no larger than its [max], and
    the difference is finite and at least the first unit's size, every
    relative phrase returned past the sub-minute early return has a
    non-zero value, negative for a [from] in the past and positive
    otherwise: no phrase of zero units is emitted. *)
Theorem formatTimeAgo_never_zero from options now a rtf val unitName :
  forallb size_within_max (units_of options) = true ->
  diff_of from now = Fin a ->
  (forall first, nth_error (units_of options) 0 = Some first ->
                 Num.leb (value first) (Fin (Qabs a)) = true) ->
  sub_minute options (diff_of from now) = false ->
  formatTimeAgo from options now = Normal (rtf_format rtf val unitName) ->
  exists m, (0 < m)%Q
            /\ val = if Num.gtb (Fin a) (Fin 0) then Fin (- m) else Fin m.
Proof.
  intros Hsized Hd Hfirst Hsub. rewrite formatTimeAgo_branches, Hsub.
  destruct (max_exceeded _ _); [discriminate|].
  unfold unit_scan. rewrite Hd. intros H.
  apply (scan_never_zero (rtf_of options) (rounding_of options) a
           (units_of options) Hsized Hfirst rtf val unitName
           (units_of options) [] eq_refl); [|exact H].
  intros u [].
Qed.

Lemma formatTimeAgo_never_zero_witness :
  exists m, (0 < m)%Q
            /\ Fin (-46) = if Num.gtb (Fin 2760000) (Fin 0)
                           then Fin (- m) else Fin m.
Proof.
  apply (formatTimeAgo_never_zero (TimeValue 0)
           (set_rounding no_options (ByName floor)) (OfNumber (Fin 2760000))
           2760000%Q (rtf_of no_options) (Fin (-46)) "minute"%string).
  - reflexivity.
  - reflexivity.
  - intros first H. injection H as <-. reflexivity.
  - reflexivity.
  - reflexivity.
Defined.

(** ** Past and future *)

Lemma Qred_inject_Z z : Qred (inject_Z z) = inject_Z z.
Proof.
  unfold Qred, inject_Z.
  pose proof (Z.ggcd_gcd z 1) as Hg.
  pose proof (Z.ggcd_correct_divisors z 1) as Hd.
  destruct (Z.ggcd z 1) as [g [n d]]. cbn [fst snd] in *.
  rewrite Z.gcd_1_r in Hg. subst g. destruct Hd as [Hn Hd].
  rewrite Z.mul_1_l in Hn, Hd. now subst n d.
Qed.

Lemma sub_of_Z x y : Num.sub (Num.of_Z x) (Num.of_Z y) = Num.of_Z (x - y).
Proof.
  unfold Num.of_Z. cbn [Num.sub]. f_equal.
  transitivity (Qred (inject_Z (x - y))).
  - apply Qred_complete. unfold Z.sub, Qminus.
    now rewrite inject_Z_plus, inject_Z_opp.
  - apply Qred_inject_Z.
Qed.

Lemma abs_of_Z_opp z : Num.abs (Num.of_Z (- z)) = Num.abs (Num.of_Z z).
Proof.
  unfold Num.of_Z, inject_Z. cbn [Num.abs]. unfold Qabs.
  now rewrite Z.abs_opp.
Qed.

Lemma gtb_of_Z_opp z :
  z <> 0%Z ->
  Num.gtb (Num.of_Z (- z)) (Fin 0) = negb (Num.gtb (Num.of_Z z) (Fin 0)).
Proof.
  destruct z; [congruence| |]; reflexivity.
Qed.

Lemma neg_involutive x : Num.neg (Num.neg x) = x.
Proof.
  destruct x as [|s|[n d]]; cbn [Num.neg]; [reflexivity| |].
  - now rewrite negb_involutive.
  - unfold Qopp. cbn [Qnum Qden]. now rewrite Z.opp_involutive.
Qed.

Section Mirror.

Variable rtf : RelativeTimeFormat.
Variable rounding : Rounding.
Variables diff diff' : num.
Variable units : list UseTimeAgoUnit.

Hypothesis same_distance : Num.abs diff' = Num.abs diff.
Hypothesis other_side :
  Num.gtb diff' (Fin 0) = negb (Num.gtb diff (Fin 0)).

Lemma getValue_mirror unit :
  getValue rounding diff' unit = getValue rounding diff unit.
Proof. unfold getValue. now rewrite same_distance. Qed.

Lemma format_mirror unit rtf' val unitName :
  format rtf rounding diff unit = Normal (rtf_format rtf' val unitName) ->
  format rtf rounding diff' unit
  = Normal (rtf_format rtf' (Num.neg val) unitName).
Proof.
  unfold format. rewrite getValue_mirror, other_side.
  destruct (getValue rounding diff unit) as [v|e]; [|discriminate].
  cbn [bind]. destruct (Num.gtb diff (Fin 0)); cbn [negb]; intros H;
    injection H as <- <- <-; [now rewrite neg_involutive|reflexivity].
Qed.

Lemma scan_mirror rtf' val unitName : forall rest idx,
  scan rtf rounding diff units idx rest
  = Normal (rtf_format rtf' val unitName) ->
  scan rtf rounding diff' units idx rest
  = Normal (rtf_format rtf' (Num.neg val) unitName).
Proof.
  induction rest as [|u rest IH]; intros idx; [discriminate|].
  cbn [scan]. rewrite getValue_mirror, same_distance.
  destruct (getValue rounding diff u) as [v|e]; [|discriminate].
  cbn [bind].
  destruct (if Num.leb v (Fin 0) then elem_at units (Z.of_nat idx - 1) else None);
    [apply format_mirror|].
  destruct (Num.ltb (Num.abs diff) (max u)); [apply format_mirror|apply IH].
Qed.

End Mirror.

(** Exchanging two distinct valid instants exchanges past and future and
    nothing else: when the call with [from] and [now] returns a relative
    phrase past the sub-minute early return, the call with the two
    exchanged returns the phrase of the same unit, by the same formatter,
    with the value negated. *)
Theorem formatTimeAgo_past_future_mirror t1 t2 options rtf val unitName :
  t1 <> t2 ->
  sub_minute options (diff_of (TimeValue t1) (OfDate (TimeValue t2))) = false ->
  formatTimeAgo (TimeValue t1) options (OfDate (TimeValue t2))
  = Normal (rtf_format rtf val unitName) ->
  formatTimeAgo (TimeValue t2) options (OfDate (TimeValue t1))
  = Normal (rtf_format rtf (Num.neg val) unitName).
Proof.
  intros Hne. rewrite !formatTimeAgo_branches. unfold unit_scan, diff_of.
  cbn [ToNumber Date_valueOf]. rewrite !sub_of_Z.
  replace (t1 - t2)%Z with (- (t2 - t1))%Z by lia.
  set (z := (t2 - t1)%Z).
  assert (Habs := abs_of_Z_opp z).
  assert (Hside := gtb_of_Z_opp z ltac:(lia)).
  unfold sub_minute, max_exceeded. rewrite Habs.
  intros ->. destruct (_ || _); [discriminate|].
  now apply scan_mirror.
Qed.

Lemma formatTimeAgo_past_future_mirror_witness :
  formatTimeAgo (TimeValue 180000) no_options (OfDate (TimeValue 0))
  = Normal (rtf_format (rtf_of no_options) (Num.neg (Fin (-3))) "minute").
Proof.
  apply (formatTimeAgo_past_future_mirror 0%Z 180000%Z no_options
           (rtf_of no_options) (Fin (-3)) "minute"%string).
  - discriminate.
  - reflexivity.
  - reflexivity.
Defined.

(** ** How large a magnitude the default table lets through *)

Lemma Qfloor_below x c : (x < inject_Z (c + 1))%Q -> (Qfloor x <= c)%Z.
Proof.
  intros Hx. pose proof (Qfloor_le x) as Hle.
  assert (H : (inject_Z (Qfloor x) < inject_Z (c + 1))%Q) by lra.
  rewrite <- Zlt_Qlt in H. lia.
Qed.

Lemma Qceiling_below x c : (x < inject_Z c)%Q -> (Qceiling x <= c)%Z.
Proof.
  intros Hx. pose proof (Qceiling_lt x) as Hlt.
  assert (H : (inject_Z (Qceiling x - 1) < inject_Z c)%Q) by lra.
  rewrite <- Zlt_Qlt in H. lia.
Qed.

(** In the default table every bounded bucket holds a whole number of
    units: [max] is a multiple of [value]. *)
Lemma DEFAULT_UNITS_whole_buckets unit b M :
  In unit DEFAULT_UNITS -> value unit = Fin b -> max unit = Fin M ->
  (0 < b)%Q /\ (M == inject_Z (Qfloor (M / b)) * b)%Q.
Proof.
  intros Hin Hb HM. cbn [DEFAULT_UNITS In] in Hin.
  repeat (destruct Hin as [<-|Hin];
          [cbn [value max] in Hb, HM; try discriminate HM;
           injection Hb as <-; injection HM as <-; split; reflexivity|]).
  destruct Hin.
Qed.

Lemma whole_bucket_cap z c b M :
  (0 < b)%Q -> (M == inject_Z c * b)%Q -> (z <= c)%Z ->
  (inject_Z z * b <= M)%Q.
Proof.
  intros Hb HM Hz. rewrite HM. apply Qmult_le_compat_r; [|lra].
  now rewrite <- Zle_Qle.
Qed.

Lemma DEFAULT_UNITS_scan rtf rounding a k unit :
  rounding = ByName round \/ rounding = ByName ceil ->
  nth_error DEFAULT_UNITS k = Some unit ->
  Num.ltb (Num.abs (Fin a)) (max unit) = true ->
  (forall j u, (j < k)%nat -> nth_error DEFAULT_UNITS j = Some u ->
     Num.ltb (Num.abs (Fin a)) (max u) = false) ->
  scan rtf rounding (Fin a) DEFAULT_UNITS 0 DEFAULT_UNITS
  = format rtf rounding (Fin a) unit.
Proof.
  intros Hr Hk Hfit Hbefore.
  apply scan_first_fitting_unit with (k := k); try assumption.
  intros [|j] u val Hj Hu Hv; [lia|].
  destruct (nth_error DEFAULT_UNITS j) as [previous|] eqn:Hp.
  - apply (DEFAULT_UNITS_no_fallback rounding a j previous u val);
      try assumption.
    apply (Hbefore j); [lia|exact Hp].
  - apply nth_error_None in Hp.
    assert (Hsome : nth_error DEFAULT_UNITS (S j) <> None) by congruence.
    apply nth_error_Some in Hsome. lia.
Qed.

(** With the default table and rounding 'round' or 'ceil', a relative
    phrase returned for a finite difference past the sub-minute early
    return is in the unit whose bucket the difference falls in, and its
    magnitude is a whole number of units that does not pass the bucket's
    bound [max / value]: at most 46 minutes, 20 hours, 6 days, 4 weeks or
    11 months. *)
Theorem formatTimeAgo_default_magnitude_bound
  from options now a rtf val unitName :
  opt_units options = None ->
  rounding_of options = ByName round \/ rounding_of options = ByName ceil ->
  diff_of from now = Fin a ->
  sub_minute options (diff_of from now) = false ->
  formatTimeAgo from options now = Normal (rtf_format rtf val unitName) ->
  exists unit z,
    In unit DEFAULT_UNITS
    /\ unitName = name unit
    /\ Num.ltb (Num.abs (Fin a)) (max unit) = true
    /\ (0 <= z)%Z
    /\ val = (if Num.gtb (Fin a) (Fin 0)
              then Fin (inject_Z (- z)) else Fin (inject_Z z))
    /\ (forall b M, value unit = Fin b -> max unit = Fin M ->
          (inject_Z z * b <= M)%Q).
Proof.
  intros Hunits Hr Hd Hsub. rewrite formatTimeAgo_branches, Hsub.
  destruct (max_exceeded _ _); [discriminate|].
  unfold unit_scan, units_of. rewrite Hunits, Hd. cbn [or_default].
  destruct (first_fitting_unit_exists
              (fun u => Num.ltb (Num.abs (Fin a)) (max u)) DEFAULT_UNITS)
    as [k [unit [Hk [Hfit Hbefore]]]].
  { exists {| max := Infinity; value := Fin 31536000000; name := "year" |}.
    split; [simpl; tauto|reflexivity]. }
  rewrite (DEFAULT_UNITS_scan _ _ a k unit Hr Hk Hfit Hbefore).
  pose proof (nth_error_In _ _ Hk) as Hin.
  assert (Hpos : positive_size unit = true)
    by (apply (proj1 (forallb_forall positive_size DEFAULT_UNITS) eq_refl);
        exact Hin).
  destruct (positive_size_spec unit Hpos) as [b [Hb Hb0]].
  destruct (div_positive_size a unit b Hb Hb0) as [q [Hq Heq]].
  unfold format, getValue. rewrite Hq.
  assert (Hq0 : (0 <= q)%Q).
  { rewrite Heq. apply Qle_shift_div_l; [exact Hb0|].
    rewrite Qmult_0_l. apply Qabs_nonneg. }
  assert (Hcap : forall M c, max unit = Fin M -> (M == inject_Z c * b)%Q ->
                   (q < inject_Z c)%Q).
  { intros M c HM Hc. rewrite HM in Hfit. cbn [Num.abs Num.ltb] in Hfit.
    apply Qltb_lt in Hfit. rewrite Heq.
    apply Qlt_shift_div_r; [exact Hb0|]. now rewrite <- Hc. }
  destruct Hr as [-> | ->]; cbn [roundFn Math_round Math_ceil bind];
    intros H.
  - exists unit, (Qfloor (q + (1 # 2))). repeat split; try assumption.
    + congruence.
    + apply Qfloor_nonnegative. lra.
    + destruct (Num.gtb (Fin a) (Fin 0)); injection H as _ <- _; reflexivity.
    + intros b' M Hb' HM. rewrite Hb in Hb'. injection Hb' as <-.
      destruct (DEFAULT_UNITS_whole_buckets unit b M Hin Hb HM) as [_ Hwhole].
      apply (whole_bucket_cap _ (Qfloor (M / b)) b M Hb0 Hwhole).
      apply Qfloor_below. rewrite inject_Z_plus.
      change (inject_Z 1) with 1%Q.
      pose proof (Hcap M _ HM Hwhole). lra.
  - exists unit, (Qceiling q). repeat split; try assumption.
    + congruence.
    + now apply Qceiling_nonnegative.
    + destruct (Num.gtb (Fin a) (Fin 0)); injection H as _ <- _; reflexivity.
    + intros b' M Hb' HM. rewrite Hb in Hb'. injection Hb' as <-.
      destruct (DEFAULT_UNITS_whole_buckets unit b M Hin Hb HM) as [_ Hwhole].
      apply (whole_bucket_cap _ (Qfloor (M / b)) b M Hb0 Hwhole).
      apply Qceiling_below. exact (Hcap M _ HM Hwhole).
Qed.

Lemma formatTimeAgo_default_magnitude_bound_witness :
  exists unit z,
    In unit DEFAULT_UNITS
    /\ "minute"%string = name unit
    /\ Num.ltb (Num.abs (Fin 2759999)) (max unit) = true
    /\ (0 <= z)%Z
    /\ Fin (-46) = (if Num.gtb (Fin 2759999) (Fin 0)
                    then Fin (inject_Z (- z)) else Fin (inject_Z z))
    /\ (forall b M, value unit = Fin b -> max unit = Fin M ->
          (inject_Z z * b <= M)%Q).
Proof.
  apply (formatTimeAgo_default_magnitude_bound (TimeValue 0) no_options
           (OfNumber (Fin 2759999)) 2759999%Q (rtf_of no_options) (Fin (-46))
           "minute"%string).
  - reflexivity.
  - left. reflexivity.
  - reflexivity.
  - reflexivity.
  - reflexivity.
Defined.

(** ** [useTimeAgo] *)

Lemma TimeClip_invalid_iff n :
  TimeClip n = InvalidDate
  <-> forall a, n = Fin a -> (8640000000000000 < Qabs a)%Q.
Proof.
  destruct n as [|s|a]; cbn [TimeClip].
  - split; [discriminate|reflexivity].
  - split; [discriminate|reflexivity].
  - destruct (Num.Qltb 8640000000000000 (Qabs a)) eqn:E.
    + apply Qltb_lt in E. split; [|reflexivity].
      intros _ a' H. now injection H as <-.
    + apply Qltb_ge in E. split; [discriminate|].
      intros H. specialize (H a eq_refl). lra.
Qed.

(** In [useTimeAgo], where [now] is a valid [Date], on a table with an
    unbounded bucket and under a rounding the magnitude function accepts,
    [timeAgo] is the empty string exactly when [new Date(time)] is an
    invalid date; for a number [time] that is when it is [NaN], infinite,
    or more than 8.64e15 ms away from the epoch. *)
Theorem useTimeAgo_empty_string_iff
  (Date_parse : string -> num) time options t :
  rounding_accepted (rounding_of (formatOptions options)) = true ->
  existsb open_bucket (units_of (formatOptions options)) = true ->
  (useTimeAgo_timeAgo Date_parse time options (TimeValue t)
   = Normal emptyString
   <-> new_Date Date_parse time = InvalidDate)
  /\ (forall n, time = FromNumber n ->
        (useTimeAgo_timeAgo Date_parse time options (TimeValue t)
         = Normal emptyString
         <-> forall a, n = Fin a -> (8640000000000000 < Qabs a)%Q)).
Proof.
  intros Hacc Hopen.
  assert (Hiff : useTimeAgo_timeAgo Date_parse time options (TimeValue t)
                 = Normal emptyString
                 <-> new_Date Date_parse time = InvalidDate).
  { unfold useTimeAgo_timeAgo. rewrite formatTimeAgo_branches.
    unfold unit_scan, diff_of. cbn [ToNumber].
    destruct (new_Date Date_parse time) as [|t0]; cbn [Date_valueOf].
    - rewrite sub_NaN_r, max_exceeded_NaN. unfold sub_minute.
      cbn [Num.abs Num.ltb andb]. split; [reflexivity|].
      intros _. now apply scan_NaN.
    - rewrite sub_of_Z. split; [|discriminate].
      destruct (sub_minute _ _); [discriminate|].
      destruct (max_exceeded _ _); [discriminate|].
      intros H. exfalso. revert H. apply scan_finds_fit.
      now apply open_bucket_fits. }
  split; [exact Hiff|].
  intros n ->. rewrite Hiff. cbn [new_Date]. apply TimeClip_invalid_iff.
Qed.

Lemma useTimeAgo_empty_string_iff_witness :
  useTimeAgo_timeAgo (fun _ => NaN) (FromNumber (Fin 8640000000000001))
    {| controls := None; updateInterval := None; formatOptions := no_options |}
    (TimeValue 0)
  = Normal emptyString.
Proof.
  apply (useTimeAgo_empty_string_iff (fun _ => NaN)
           (FromNumber (Fin 8640000000000001))
           {| controls := None; updateInterval := None;
              formatOptions := no_options |} 0%Z);
    reflexivity.
Defined.

(** ** No unit coarser than one that fits *)

Lemma nth_error_middle (pre rest : list UseTimeAgoUnit) u :
  nth_error (pre ++ u :: rest) (List.length pre) = Some u.
Proof.
  rewrite nth_error_app2 by lia. now rewrite Nat.sub_diag.
Qed.

Lemma scan_stops_by rtf rounding diff units rtf' val unitName :
  forall rest pre k unit,
  units = pre ++ rest ->
  nth_error rest k = Some unit ->
  Num.ltb (Num.abs diff) (max unit) = true ->
  scan rtf rounding diff units (List.length pre) rest
  = Normal (rtf_format rtf' val unitName) ->
  exists j u,
    (j <= List.length pre + k)%nat
    /\ nth_error units j = Some u
    /\ format rtf rounding diff u = Normal (rtf_format rtf' val unitName).
Proof.
  induction rest as [|u0 rest IH]; intros pre k unit Hunits Hk Hfit;
    [destruct k; discriminate|].
  cbn [scan].
  destruct (getValue rounding diff u0) as [v|e]; [|discriminate].
  cbn [bind].
  destruct (if Num.leb v (Fin 0)
            then elem_at units (Z.of_nat (List.length pre) - 1) else None)
    as [previous|] eqn:Hfb.
  - intros H. destruct (Num.leb v (Fin 0)); [|discriminate].
    destruct pre as [|p pre'] eqn:Hp; [discriminate|]. rewrite <- Hp in *.
    rewrite elem_at_previous in Hfb by (rewrite Hp; simpl; lia).
    exists (List.length pre - 1)%nat, previous.
    repeat split; [lia|exact Hfb|exact H].
  - destruct (Num.ltb (Num.abs diff) (max u0)) eqn:H0.
    + intros H. exists (List.length pre), u0.
      repeat split; [lia| |exact H].
      rewrite Hunits. apply nth_error_middle.
    + destruct k as [|k]; [injection Hk as <-; congruence|].
      intros H.
      destruct (IH (pre ++ [u0]) k unit) as [j [u [Hj [Hu Hf]]]].
      * now rewrite <- app_assoc.
      * exact Hk.
      * exact Hfit.
      * rewrite length_app. cbn [List.length].
        now replace (List.length pre + 1)%nat with (S (List.length pre)) by lia.
      * exists j, u. repeat split; [|exact Hu|exact Hf].
        rewrite length_app in Hj. cbn [List.length] in Hj. lia.
Qed.

(** Whatever the rounding and the table, a relative phrase returned past
    the sub-minute early return is built by [format] on a unit at or before
    any unit whose bucket fits: the scan never goes on to a coarser unit. *)
Theorem formatTimeAgo_unit_not_coarser
  from options now k unit rtf val unitName :
  sub_minute options (diff_of from now) = false ->
  nth_error (units_of options) k = Some unit ->
  Num.ltb (Num.abs (diff_of from now)) (max unit) = true ->
  formatTimeAgo from options now = Normal (rtf_format rtf val unitName) ->
  exists j u,
    (j <= k)%nat
    /\ nth_error (units_of options) j = Some u
    /\ unitName = name u
    /\ format (rtf_of options) (rounding_of options) (diff_of from now) u
       = Normal (rtf_format rtf val unitName).
Proof.
  intros Hsub Hk Hfit. rewrite formatTimeAgo_branches, Hsub.
  destruct (max_exceeded _ _); [discriminate|].
  unfold unit_scan. intros H.
  destruct (scan_stops_by _ _ _ _ _ _ _ (units_of options) [] k unit
              eq_refl Hk Hfit H) as [j [u [Hj [Hu Hf]]]].
  exists j, u. repeat split; try assumption.
  destruct (format_cases (rtf_of options) (rounding_of options)
              (diff_of from now) u) as [[e He]|[v Hv]]; congruence.
Qed.

Lemma formatTimeAgo_unit_not_coarser_witness :
  exists j u,
    (j <= 2)%nat
    /\ nth_error (units_of (set_rounding no_options (ByName floor))) j = Some u
    /\ "minute"%string = name u
    /\ format (rtf_of (set_rounding no_options (ByName floor)))
         (rounding_of (set_rounding no_options (ByName floor)))
         (diff_of (TimeValue 0) (OfNumber (Fin 2760000))) u
       = Normal (rtf_format (rtf_of no_options) (Fin (-46)) "minute").
Proof.
  apply (formatTimeAgo_unit_not_coarser (TimeValue 0)
           (set_rounding no_options (ByName floor)) (OfNumber (Fin 2760000))
           2%nat
           {| max := Fin 72000000; value := Fin 3600000; name := "hour" |});
    reflexivity.
Defined.
